(** * Shallow embedding of the generation pipeline of food-fight-robots

    The Tauri back end ([src-tauri/src]) chains three kinds of remote jobs
    (image-to-3D, rigging, animation) behind poll loops, after a stats stage
    with a JSON fallback extractor, and stores one [RobotRecord] at the end.

    Modelling choices:
    - every remote interaction is an oracle: the i-th status request of a
      poll loop receives [obs i] (a transport error or an HTTP response);
    - the poll loops run in a small state monad that counts the status
      requests actually sent and records the progress events, log lines
      and sleeps in program order;
    - [loop {..}] is a [Fixpoint] on a fuel argument; the fuel given at the
      entry points is shown to be enough (the loop is bounded by the
      attempt counter);
    - the stats response text is taken as already tokenised JSON
      ([option Value], [None] for text that is not JSON); objects are their
      entry lists in the map's iteration order. *)

From Stdlib Require Import String Ascii List ZArith NArith Bool Lia Permutation.
Import ListNotations.
Open Scope string_scope.

(** Rust's [Result]. *)
Inductive Result (A E : Type) : Type :=
| Ok (a : A)
| Err (e : E).
Arguments Ok {A E} a.
Arguments Err {A E} e.

(** [format!("{}", n)] for an unsigned integer. *)
Fixpoint decimal_digits (fuel : nat) (n : N) : string :=
  match fuel with
  | O => ""
  | S f =>
      let d := String (ascii_of_N (48 + N.modulo n 10)) "" in
      if N.ltb n 10 then d else decimal_digits f (N.div n 10) ++ d
  end.

Definition string_of_N (n : N) : string := decimal_digits 20 n.
Definition string_of_nat (n : nat) : string := string_of_N (N.of_nat n).

(** [s.contains(sub)]. *)
Fixpoint contains (s sub : string) : bool :=
  String.prefix sub s ||
  match s with
  | EmptyString => false
  | String _ s' => contains s' sub
  end.

(** ** HTTP responses as a poll loop receives them *)

(** Outcome of one [client.get(..).send().await] followed by
    [res.text()] or [res.json::<A>()]: a transport error, or a response
    with its status code, the [Display] of that code, its body text and the
    result of decoding the body as [A]. *)
Inductive http_outcome (A : Type) : Type :=
| SendErr (e : string)
| Resp (code : N) (status_display : string) (text : string) (json : A + string).
Arguments SendErr {A} e.
Arguments Resp {A} code status_display text json.

(** [StatusCode::is_success]: 200..=299. *)
Definition is_success (code : N) : bool := N.leb 200 code && N.ltb code 300.

(** ** Observable effects of a poll loop *)

Inductive event : Type :=
| Emit (name payload : string)   (* app.emit(name, payload) *)
| Log (line : string)            (* println! *)
| Sleep (secs : nat).            (* sleep(Duration::from_secs(secs)) *)

Record poll_state : Type := mk_poll_state {
  fetches : nat;          (* status requests sent so far *)
  events : list event     (* effects in program order *)
}.

Definition M (A : Type) : Type := poll_state -> A * poll_state.

Definition ret {A} (a : A) : M A := fun s => (a, s).
Definition bind {A B} (m : M A) (k : A -> M B) : M B :=
  fun s => let (a, s') := m s in k a s'.

Declare Scope poll_scope.
Notation "x <- m ;; k" := (bind m (fun x => k))
  (at level 61, m at next level, right associativity) : poll_scope.
Notation "m ;;; k" := (bind m (fun _ => k))
  (at level 61, right associativity) : poll_scope.
Open Scope poll_scope.

Definition record_event (e : event) : M unit :=
  fun s => (tt, mk_poll_state (fetches s) (events s ++ [e])).
Definition emit (name payload : string) : M unit := record_event (Emit name payload).
Definition log (line : string) : M unit := record_event (Log line).
Definition sleep (secs : nat) : M unit := record_event (Sleep secs).

(** One status request: the answer is the oracle's entry for its index. *)
Definition fetch {A} (obs : nat -> http_outcome A) : M (http_outcome A) :=
  fun s => (obs (fetches s), mk_poll_state (S (fetches s)) (events s)).

Definition init_state : poll_state := mk_poll_state 0 [].
Definition run_poll {A} (m : M A) : A * poll_state := m init_state.

(** A finite script of answers; requests past its end receive [dflt]. *)
Definition obs_of_list {A} (dflt : http_outcome A) (l : list (http_outcome A)) : nat -> http_outcome A :=
  fun n => nth n l dflt.

(** All three loops use [let max_attempts = 120;]. *)
Definition max_attempts : nat := 120.

(** Fuel handed to every loop: more iterations than the attempt counter
    allows. *)
Definition loop_fuel : nat := S (S max_attempts).

Definition unwrap_loop {A} (r : option (Result A string)) : Result A string :=
  match r with
  | Some x => x
  | None => Err "poll loop fuel exhausted"
  end.

Module Meshy.

Record ModelUrls : Type := mkModelUrls {
  glb : option string;
  fbx : option string;
  obj : option string
}.

Record TaskError : Type := mkTaskError { message : string }.

Record TaskStatusResponse : Type := mkTaskStatusResponse {
  id : string;
  status : string;
  progress : N;
  model_urls : option ModelUrls;
  task_error : option TaskError
}.

(** ** Image-to-3D status polling ([get_task_status], [poll_for_glb_url]) *)
Section GlbPoll.

Variable api_key : option string.   (* env::var("MESHY_AI_API_KEY") *)
Variable obs : nat -> http_outcome TaskStatusResponse.

Definition get_task_status : M (Result TaskStatusResponse string) :=
  match api_key with
  | None => ret (Err "MESHY_AI_API_KEY not found")
  | Some _ =>
      res <- fetch obs ;;
      ret (match res with
           | SendErr e => Err ("Failed to send task status request: " ++ e)
           | Resp code _ text json =>
               if negb (is_success code) then Err ("Meshy API Error: " ++ text)
               else match json with
                    | inl st => Ok st
                    | inr e => Err ("Failed to parse task status response: " ++ e)
                    end
           end)
  end.

Fixpoint poll_for_glb_url_loop (fuel attempts : nat) : M (option (Result string string)) :=
  match fuel with
  | O => ret None
  | S fuel' =>
      if Nat.ltb max_attempts attempts then
        ret (Some (Err "Timeout waiting for Meshy AI task"))
      else
        status_res <- get_task_status ;;
        match status_res with
        | Ok st =>
            let s := status st in
            if String.eqb s "SUCCEEDED" then
              ret (Some (match model_urls st with
                         | Some urls =>
                             match glb urls with
                             | Some g => Ok g
                             | None => Err "Task succeeded but no GLB URL found in response"
                             end
                         | None => Err "Task succeeded but no GLB URL found in response"
                         end))
            else if String.eqb s "FAILED" then
              let err_msg := match task_error st with
                             | Some e => message e
                             | None => "Unknown error"
                             end in
              ret (Some (Err ("Meshy Task Failed: " ++ err_msg)))
            else if String.eqb s "PENDING" || String.eqb s "IN_PROGRESS" then
              emit "pipeline-progress"
                   ("Image to 3D Base Model: " ++ string_of_N (progress st) ++ "%") ;;;
              sleep 5 ;;;
              poll_for_glb_url_loop fuel' (S attempts)
            else
              ret (Some (Err ("Unknown status: " ++ s)))
        | Err e =>
            log ("Transient error polling Image-to-3D task (attempt " ++ string_of_nat attempts
                 ++ "/" ++ string_of_nat max_attempts ++ "): " ++ e) ;;;
            sleep 5 ;;;
            poll_for_glb_url_loop fuel' (S attempts)
        end
  end.

Definition poll_for_glb_url : M (Result string string) :=
  r <- poll_for_glb_url_loop loop_fuel 0 ;;
  ret (unwrap_loop r).

End GlbPoll.

(** ** Rigging status polling ([poll_for_rigging_success]) *)
Section RigPoll.

Variable api_key : option string.   (* std::env::var("MESHY_AI_API_KEY") *)
Variable task_id : string.
Variable obs : nat -> http_outcome TaskStatusResponse.

Fixpoint poll_for_rigging_success_loop (fuel attempts : nat) : M (option (Result unit string)) :=
  match fuel with
  | O => ret None
  | S fuel' =>
      (* the common tail of the loop body: budget check, then sleep *)
      let after_poll (attempts' : nat) :=
        if Nat.ltb max_attempts attempts' then
          ret (Some (Err "Timeout waiting for Rigging task"))
        else
          sleep 10 ;;; poll_for_rigging_success_loop fuel' attempts' in
      res <- fetch obs ;;
      match res with
      | Resp code disp text json =>
          if negb (is_success code) then
            ret (Some (Err ("Meshy poll error: " ++ disp ++ " - " ++ text)))
          else
            match json with
            | inr e => ret (Some (Err ("Failed to parse Rigging task status: " ++ e)))
            | inl task_status =>
                let s := status task_status in
                if String.eqb s "SUCCEEDED" then ret (Some (Ok tt))
                else if String.eqb s "FAILED" || String.eqb s "CANCELED" then
                  ret (Some (Err ("Rigging task failed or canceled. ID: " ++ task_id)))
                else
                  emit "pipeline-progress"
                       ("Rigging Model: " ++ string_of_N (progress task_status) ++ "%") ;;;
                  after_poll (S attempts)
            end
      | SendErr e =>
          log ("Transient error polling Rigging task: " ++ e) ;;;
          after_poll (S attempts)
      end
  end.

Definition poll_for_rigging_success : M (Result unit string) :=
  match api_key with
  | None => ret (Err "MESHY_AI_API_KEY not set in .env")
  | Some _ =>
      r <- poll_for_rigging_success_loop loop_fuel 0 ;;
      ret (unwrap_loop r)
  end.

End RigPoll.

(** ** Animation status polling ([poll_for_animation_glb]) *)
Module Anim.

Record AnimationUrls : Type := mkAnimationUrls { animation_glb_url : option string }.

Record AnimationTaskStatusResponse : Type := mkAnimationTaskStatusResponse {
  status : string;
  progress : option N;
  result : option AnimationUrls
}.

End Anim.

Section AnimPoll.

Variable api_key : option string.
Variable task_id : string.
Variable anim_name : string.
Variable obs : nat -> http_outcome Anim.AnimationTaskStatusResponse.

Fixpoint poll_for_animation_glb_loop (fuel attempts : nat) : M (option (Result string string)) :=
  match fuel with
  | O => ret None
  | S fuel' =>
      let after_poll (attempts' : nat) :=
        if Nat.ltb max_attempts attempts' then
          ret (Some (Err ("Timeout waiting for Animation task (" ++ anim_name ++ ")")))
        else
          sleep 10 ;;; poll_for_animation_glb_loop fuel' attempts' in
      res <- fetch obs ;;
      match res with
      | Resp code disp text json =>
          if negb (is_success code) then
            ret (Some (Err ("Meshy poll error: " ++ disp ++ " - " ++ text)))
          else
            match json with
            | inr e => ret (Some (Err ("Failed to parse Animation task status: " ++ e)))
            | inl task_status =>
                let s := Anim.status task_status in
                if String.eqb s "SUCCEEDED" then
                  ret (Some (match Anim.result task_status with
                             | Some result =>
                                 match Anim.animation_glb_url result with
                                 | Some glb_url => Ok glb_url
                                 | None => Err "Task succeeded but animation_glb_url is missing"
                                 end
                             | None => Err "Task succeeded but result object is missing"
                             end))
                else if String.eqb s "FAILED" || String.eqb s "CANCELED" then
                  ret (Some (Err ("Animation task failed or canceled. ID: " ++ task_id)))
                else
                  emit "pipeline-progress"
                       ("Applying Animation (" ++ anim_name ++ "): "
                        ++ string_of_N (match Anim.progress task_status with
                                        | Some p => p
                                        | None => 0%N
                                        end) ++ "%") ;;;
                  after_poll (S attempts)
            end
      | SendErr e =>
          log ("Transient error polling Animation task: " ++ e) ;;;
          after_poll (S attempts)
      end
  end.

Definition poll_for_animation_glb : M (Result string string) :=
  match api_key with
  | None => ret (Err "MESHY_AI_API_KEY not set in .env")
  | Some _ =>
      r <- poll_for_animation_glb_loop loop_fuel 0 ;;
      ret (unwrap_loop r)
  end.

End AnimPoll.

End Meshy.

(** ** Stats generation ([gemini::generate_robot_status], lines 134-191) *)
Module Gemini.

Local Set Warnings "-register-all".

(** [serde_json::Number]: an integer (PosInt u64 / NegInt i64) or a float,
    kept opaque through its literal. *)
Inductive Number : Type :=
| NInt (z : Z)
| NFloat (literal : string).

(** [serde_json::Value]; an object is its entry list in iteration order. *)
Inductive Value : Type :=
| JNull
| JBool (b : bool)
| JNumber (n : Number)
| JString (s : string)
| JArray (l : list Value)
| JObject (entries : list (string * Value)).

Record RobotStatus : Type := mkRobotStatus {
  name : string;
  lore : string;
  hp : Z;
  atk : Z;
  def : Z;
  visual_description : string
}.

Definition i64_max : Z := 2 ^ 63 - 1.
Definition in_i32 (z : Z) : bool := (- 2 ^ 31 <=? z)%Z && (z <? 2 ^ 31)%Z.

(** [n as i32]: two's-complement truncation. *)
Definition wrap_i32 (z : Z) : Z := (Z.modulo (z + 2 ^ 31) (2 ^ 32) - 2 ^ 31)%Z.

Definition as_str (v : Value) : option string :=
  match v with JString s => Some s | _ => None end.

Definition as_i64 (v : Value) : option Z :=
  match v with
  | JNumber (NInt z) => if (z <=? i64_max)%Z then Some z else None
  | _ => None
  end.

(** [str::to_lowercase] on ASCII text. *)
Definition lower_ascii (c : ascii) : ascii :=
  let n := nat_of_ascii c in
  if Nat.leb 65 n && Nat.leb n 90 then ascii_of_nat (n + 32) else c.

Fixpoint to_lowercase (s : string) : string :=
  match s with
  | EmptyString => EmptyString
  | String c s' => String (lower_ascii c) (to_lowercase s')
  end.

(** [keys.contains(&k.to_lowercase().as_str())] *)
Definition key_matches (keys : list string) (k : string) : bool :=
  existsb (String.eqb (to_lowercase k)) keys.

(** *** Strict path: [serde_json::from_str::<RobotStatus>(text)] *)

Inductive field : Type := FName | FLore | FHp | FAtk | FDef | FVisual.

Definition field_eqb (f g : field) : bool :=
  match f, g with
  | FName, FName | FLore, FLore | FHp, FHp | FAtk, FAtk | FDef, FDef
  | FVisual, FVisual => true
  | _, _ => false
  end.

(** The field name together with its [#[serde(alias = ..)]] spellings. *)
Definition field_of_key (k : string) : option field :=
  if String.eqb k "name" || String.eqb k "Name" then Some FName
  else if String.eqb k "lore" || String.eqb k "Lore" then Some FLore
  else if String.eqb k "hp" || String.eqb k "HP" then Some FHp
  else if String.eqb k "atk" || String.eqb k "ATK" then Some FAtk
  else if String.eqb k "def" || String.eqb k "DEF" then Some FDef
  else if String.eqb k "visual_description" || String.eqb k "VisualDescription"
          || String.eqb k "visualDescription" then Some FVisual
  else None.

Definition de_string (v : Value) : option string := as_str v.

(** [i32::deserialize]: an integer in range; floats are refused. *)
Definition de_i32 (v : Value) : option Z :=
  match v with
  | JNumber (NInt z) => if in_i32 z then Some z else None
  | _ => None
  end.

(** The derived map visitor: unknown keys are skipped, a repeated field is
    an error; the collected values are then decoded. *)
Fixpoint visit_map (entries : list (string * Value)) (seen : list (field * Value))
  : option (list (field * Value)) :=
  match entries with
  | [] => Some seen
  | (k, v) :: rest =>
      match field_of_key k with
      | None => visit_map rest seen
      | Some f =>
          if existsb (fun '(g, _) => field_eqb f g) seen then None
          else visit_map rest (seen ++ [(f, v)])
      end
  end.

Definition lookup_field (f : field) (seen : list (field * Value)) : option Value :=
  option_map snd (find (fun '(g, _) => field_eqb f g) seen).

Definition obind {A B} (o : option A) (k : A -> option B) : option B :=
  match o with Some a => k a | None => None end.

Definition build_status (n l h a d vd : option Value) : option RobotStatus :=
  obind (obind n de_string) (fun name =>
  obind (obind l de_string) (fun lore =>
  obind (obind h de_i32) (fun hp =>
  obind (obind a de_i32) (fun atk =>
  obind (obind d de_i32) (fun def =>
  obind (obind vd de_string) (fun visual_description =>
  Some (mkRobotStatus name lore hp atk def visual_description))))))).

Definition serde_robot_status (v : Value) : option RobotStatus :=
  match v with
  | JObject entries =>
      obind (visit_map entries []) (fun seen =>
        build_status (lookup_field FName seen) (lookup_field FLore seen)
                     (lookup_field FHp seen) (lookup_field FAtk seen)
                     (lookup_field FDef seen) (lookup_field FVisual seen))
  | JArray [n; l; h; a; d; vd] =>
      build_status (Some n) (Some l) (Some h) (Some a) (Some d) (Some vd)
  | _ => None
  end.

(** *** Fallback path: the nested [find_string] and [find_i32] *)

Fixpoint find_string (v : Value) (keys : list string) : option string :=
  match v with
  | JObject obj =>
      (fix go (l : list (string * Value)) : option string :=
         match l with
         | [] => None
         | (k, val) :: rest =>
             match (if key_matches keys k then as_str val else None) with
             | Some s => Some s
             | None =>
                 match find_string val keys with
                 | Some res => Some res
                 | None => go rest
                 end
             end
         end) obj
  | _ => None
  end.

Fixpoint find_i32 (v : Value) (keys : list string) : option Z :=
  match v with
  | JObject obj =>
      (fix go (l : list (string * Value)) : option Z :=
         match l with
         | [] => None
         | (k, val) :: rest =>
             match (if key_matches keys k then option_map wrap_i32 (as_i64 val) else None) with
             | Some n => Some n
             | None =>
                 match find_i32 val keys with
                 | Some res => Some res
                 | None => go rest
                 end
             end
         end) obj
  | _ => None
  end.

Definition unwrap_or {A} (o : option A) (d : A) : A :=
  match o with Some a => a | None => d end.

(** The response text, [None] when it is not JSON at all. *)
Definition robot_status_of_text (text : option Value) : Result RobotStatus string :=
  match obind text serde_robot_status with
  | Some s => Ok s
  | None =>
      match text with
      | None => Err "Failed to parse JSON"
      | Some v =>
          let name := unwrap_or (find_string v ["name"]) "Unknown Robot" in
          let lore := unwrap_or (find_string v ["lore"]) "No lore available." in
          let visual_description :=
            unwrap_or (find_string v ["visual_description"; "visual_description_en"])
                      "A standard mechanical combat robot." in
          let hp := unwrap_or (find_i32 v ["hp"]) 1000%Z in
          let atk := unwrap_or (find_i32 v ["atk"]) 50%Z in
          let def := unwrap_or (find_i32 v ["def"]) 20%Z in
          Ok (mkRobotStatus name lore hp atk def visual_description)
      end
  end.

End Gemini.

(** ** Result store ([db.rs]) *)
Module Db.

Record RobotRecord : Type := mkRobotRecord {
  id : string;
  name : string;
  lore : string;
  hp : Z;
  atk : Z;
  def : Z;
  original_image_path : string;
  image_path : string;
  model_path : string;
  attack_model_path : string;
  created_at : Z;
  generation_time_ms : Z
}.

(** The [robots] table as the list of its rows in insertion order. *)
Definition Connection : Type := list RobotRecord.

(** [insert_robot]: one INSERT; [id] is the PRIMARY KEY, and a statement
    that fails leaves the table as it was. *)
Definition insert_robot (conn : Connection) (robot : RobotRecord) : Result Connection string :=
  if List.existsb (fun r => String.eqb (id r) (id robot)) conn then
    Err "UNIQUE constraint failed: robots.id"
  else Ok (conn ++ [robot])%list.

End Db.

(** ** The orchestrator ([lib.rs], [run_generation_pipeline]) *)
Module Pipeline.

(** What the run receives from the outside world: credentials, the answers
    of the remote services, the file system and the clock. *)
Record Env : Type := mkEnv {
  meshy_api_key : option string;
  generate_robot_status : string -> Result Gemini.RobotStatus string;
  generate_robot_image : string -> Result string string;
  create_image_to_3d_task : string -> Result string string;
  mesh_status : string -> nat -> http_outcome Meshy.TaskStatusResponse;
  app_data_dir : string;
  base64_decode : string -> Result (list Byte.byte) string;
  fs_write : string -> list Byte.byte -> Result unit string;
  create_rigging_task : string -> Result string string;
  rig_status : string -> nat -> http_outcome Meshy.TaskStatusResponse;
  create_animation_task : string -> N -> Result string string;
  anim_status : string -> nat -> http_outcome Meshy.Anim.AnimationTaskStatusResponse;
  download_glb : string -> string -> Result string string;   (* url, filename -> path *)
  elapsed_ms : Z;
  now_secs : Z;
  new_uuid : string;
  lock_error : option string;    (* state.lock() on a poisoned mutex *)
  db_fault : option string       (* an INSERT failing for another reason *)
}.

(** Errors short-circuit ([?]); the state is the result store. *)
Definition PM (A : Type) : Type := Db.Connection -> Result A string * Db.Connection.

Definition pret {A} (a : A) : PM A := fun st => (Ok a, st).
Definition pbind {A B} (m : PM A) (k : A -> PM B) : PM B :=
  fun st => match m st with
            | (Ok a, st') => k a st'
            | (Err e, st') => (Err e, st')
            end.
Definition lift {A} (r : Result A string) : PM A := fun st => (r, st).

Declare Scope pipeline_scope.
Notation "x <-? m ;; k" := (pbind m (fun x => k))
  (at level 61, m at next level, right associativity) : pipeline_scope.
Open Scope pipeline_scope.

Definition map_err {A} (f : string -> string) (r : Result A string) : Result A string :=
  match r with Ok a => Ok a | Err e => Err (f e) end.

(** [s.split(",").last().unwrap_or("")]: the text after the last comma. *)
Fixpoint last_segment (s acc : string) : string :=
  match s with
  | EmptyString => acc
  | String c s' =>
      if Ascii.eqb c ","%char then last_segment s' "" else last_segment s' (acc ++ String c "")
  end.

Definition clean_base64_of (base64_image : string) : string :=
  if contains base64_image "," then last_segment base64_image "" else base64_image.

(** [Path::has_root] on Unix: the path starts with '/'. *)
Definition is_absolute (p : string) : bool :=
  match p with
  | EmptyString => false
  | String c _ => Ascii.eqb c "/"%char
  end.

(** The last byte of the path is the separator '/'. *)
Fixpoint ends_with_sep (s : string) : bool :=
  match s with
  | EmptyString => false
  | String c EmptyString => Ascii.eqb c "/"%char
  | String _ s' => ends_with_sep s'
  end.

(** [dir.join(name)] on Unix ([PathBuf::push]): an absolute [name]
    replaces [dir]; otherwise a '/' is put between them unless [dir] is
    empty or already ends with one. *)
Definition join (dir name : string) : string :=
  if is_absolute name then name
  else if String.eqb dir "" || ends_with_sep dir then dir ++ name
  else dir ++ "/" ++ name.

(** The result of a poll loop run on its own status endpoint. *)
Definition poll_result {A} (m : M (Result A string)) : Result A string := fst (run_poll m).

Definition lock_store (env : Env) : PM unit :=
  fun st => match lock_error env with
            | Some e => (Err e, st)
            | None => (Ok tt, st)
            end.

Definition insert_robot (env : Env) (robot : Db.RobotRecord) : PM unit :=
  fun st => match db_fault env with
            | Some e => (Err e, st)
            | None =>
                match Db.insert_robot st robot with
                | Ok st' => (Ok tt, st')
                | Err e => (Err e, st)
                end
            end.

(** Progress events sent to the front end are fire-and-forget
    ([let _ = app.emit(..)]) and are left out. [tokio::join!] runs both
    animation loops to completion before either result is inspected. *)
Definition run_generation_pipeline (env : Env) (base64_image : string) : PM Db.RobotRecord :=
  let key := meshy_api_key env in
  let clean_base64 := clean_base64_of base64_image in
  stats <-? lift (generate_robot_status env clean_base64) ;;
  gen_image_b64 <-? lift (generate_robot_image env (Gemini.visual_description stats)) ;;
  task_id <-? lift (create_image_to_3d_task env gen_image_b64) ;;
  _ <-? lift (poll_result (Meshy.poll_for_glb_url key (mesh_status env task_id))) ;;
  let original_image_path := join (app_data_dir env) (task_id ++ "_original.png") in
  let generated_image_path := join (app_data_dir env) (task_id ++ "_gen.png") in
  orig_image_bytes <-? lift (map_err (fun e => "Base64 Error (Orig): " ++ e)
                                     (base64_decode env clean_base64)) ;;
  _ <-? lift (fs_write env original_image_path orig_image_bytes) ;;
  gen_image_bytes <-? lift (map_err (fun e => "Base64 Error (Gen): " ++ e)
                                    (base64_decode env gen_image_b64)) ;;
  _ <-? lift (fs_write env generated_image_path gen_image_bytes) ;;
  rig_task_id <-? lift (create_rigging_task env task_id) ;;
  _ <-? lift (poll_result (Meshy.poll_for_rigging_success key rig_task_id
                                                          (rig_status env rig_task_id))) ;;
  idle_anim_task_id <-? lift (create_animation_task env rig_task_id 0) ;;
  attack_anim_task_id <-? lift (create_animation_task env rig_task_id 92) ;;
  let idle_url_res :=
    poll_result (Meshy.poll_for_animation_glb key idle_anim_task_id "Idle"
                                              (anim_status env idle_anim_task_id)) in
  let attack_url_res :=
    poll_result (Meshy.poll_for_animation_glb key attack_anim_task_id "Attack"
                                              (anim_status env attack_anim_task_id)) in
  idle_url <-? lift idle_url_res ;;
  attack_url <-? lift attack_url_res ;;
  idle_path <-? lift (download_glb env idle_url (task_id ++ "_idle.glb")) ;;
  attack_path <-? lift (download_glb env attack_url (task_id ++ "_attack.glb")) ;;
  let new_robot :=
    Db.mkRobotRecord (new_uuid env) (Gemini.name stats) (Gemini.lore stats)
                     (Gemini.hp stats) (Gemini.atk stats) (Gemini.def stats)
                     original_image_path generated_image_path idle_path attack_path
                     (now_secs env) (elapsed_ms env) in
  _ <-? lock_store env ;;
  _ <-? insert_robot env new_robot ;;
  pret new_robot.

End Pipeline.

(** * Classifiers and concrete inputs used by the statements *)
Module Classify.
Import Meshy.

(** Answers on which a loop goes round again. *)
Definition glb_continues (o : http_outcome TaskStatusResponse) : bool :=
  match o with
  | SendErr _ => true
  | Resp code _ _ json =>
      negb (is_success code) ||
      match json with
      | inr _ => true
      | inl st => String.eqb (status st) "PENDING" || String.eqb (status st) "IN_PROGRESS"
      end
  end.

Definition rig_terminal (s : string) : bool :=
  String.eqb s "SUCCEEDED" || String.eqb s "FAILED" || String.eqb s "CANCELED".

Definition rig_continues (o : http_outcome TaskStatusResponse) : bool :=
  match o with
  | SendErr _ => true
  | Resp code _ _ (inl st) => is_success code && negb (rig_terminal (status st))
  | Resp _ _ _ (inr _) => false
  end.

Definition anim_continues (o : http_outcome Anim.AnimationTaskStatusResponse) : bool :=
  match o with
  | SendErr _ => true
  | Resp code _ _ (inl st) => is_success code && negb (rig_terminal (Anim.status st))
  | Resp _ _ _ (inr _) => false
  end.

Definition ok_resp {A} (body : A) : http_outcome A := Resp 200 "200 OK" "" (inl body).

Definition mesh_status_of (s : string) (p : N) (glb_url : option string) : TaskStatusResponse :=
  mkTaskStatusResponse "mesh-1" s p (Some (mkModelUrls glb_url None None)) None.

(** End-to-end scenario A: PENDING(0), IN_PROGRESS(40), IN_PROGRESS(90),
    SUCCEEDED with a GLB URL. *)
Definition scenario_a_obs : nat -> http_outcome TaskStatusResponse :=
  obs_of_list (SendErr "no more answers")
    [ ok_resp (mesh_status_of "PENDING" 0 None);
      ok_resp (mesh_status_of "IN_PROGRESS" 40 None);
      ok_resp (mesh_status_of "IN_PROGRESS" 90 None);
      ok_resp (mesh_status_of "SUCCEEDED" 100 (Some "https://x/y.glb")) ].

Definition sample_stats : Gemini.RobotStatus :=
  Gemini.mkRobotStatus "Onigiri Titan" "Built by Oishii Industry." 1200 60 25
                       "rice ball combat robot, extreme full body shot".

(** End-to-end scenario C: every stage before rigging succeeds, the rig job
    reports FAILED with the message "input mesh invalid". *)
Definition scenario_c_env : Pipeline.Env :=
  Pipeline.mkEnv
    (Some "msy_key")
    (fun _ => Ok sample_stats)
    (fun _ => Ok "R0VOSU1H")
    (fun _ => Ok "mesh-1")
    (fun _ _ => ok_resp (mesh_status_of "SUCCEEDED" 100 (Some "https://x/y.glb")))
    "/data"
    (fun _ => Ok [])
    (fun _ _ => Ok tt)
    (fun _ => Ok "rig-1")
    (fun _ _ => ok_resp (mkTaskStatusResponse "rig-1" "FAILED" 0 None
                                               (Some (mkTaskError "input mesh invalid"))))
    (fun _ _ => Ok "anim-1")
    (fun _ _ => ok_resp (Anim.mkAnimationTaskStatusResponse "SUCCEEDED" (Some 100%N)
                           (Some (Anim.mkAnimationUrls (Some "https://x/a.glb")))))
    (fun _ f => Ok (Pipeline.join "/data" f))
    5000 1760000000 "uuid-1" None None.

(** A rigging status endpoint answering 503 to every request. *)
Definition busy_rig_obs : nat -> http_outcome TaskStatusResponse :=
  fun _ => Resp 503 "503 Service Unavailable" "busy" (inr "expected value at line 1 column 1").

(** The six fields the stats prompt asks for, under keys spelled in any
    case, with string and integer values. *)
Definition stats_entries (kn kl kh ka kd kv : string) (n l : string) (hp atk def : Z) (vd : string)
  : list (string * Gemini.Value) :=
  [ (kn, Gemini.JString n); (kl, Gemini.JString l);
    (kh, Gemini.JNumber (Gemini.NInt hp)); (ka, Gemini.JNumber (Gemini.NInt atk));
    (kd, Gemini.JNumber (Gemini.NInt def)); (kv, Gemini.JString vd) ].

Definition has_key (k : string) (entries : list (string * Gemini.Value)) : bool :=
  existsb (fun '(k', _) => String.eqb k' k) entries.

(** Every stage succeeds up to the animation jobs; the Attack job (action
    92) reports FAILED. *)
Definition scenario_b_fail_env : Pipeline.Env :=
  Pipeline.mkEnv
    (Some "msy_key")
    (fun _ => Ok sample_stats)
    (fun _ => Ok "R0VOSU1H")
    (fun _ => Ok "mesh-1")
    (fun _ _ => ok_resp (mesh_status_of "SUCCEEDED" 100 (Some "https://x/y.glb")))
    "/data"
    (fun _ => Ok [])
    (fun _ _ => Ok tt)
    (fun _ => Ok "rig-1")
    (fun _ _ => ok_resp (mkTaskStatusResponse "rig-1" "SUCCEEDED" 100 None None))
    (fun _ a => if N.eqb a 0 then Ok "anim-idle" else Ok "anim-attack")
    (fun _ _ => ok_resp (Anim.mkAnimationTaskStatusResponse "FAILED" None None))
    (fun _ f => Ok (Pipeline.join "/data" f))
    5000 1760000000 "uuid-1" None None.

End Classify.

(** * The remaining back-end functions *)

(** ** Creating the image-to-3D task ([meshy.rs], [create_image_to_3d_task]) *)
Module MeshyCreate.

(** An HTTP request as the client builds it. *)
Record Request : Type := mkRequest {
  method : string;
  url : string;
  authorization : option string;
  body : option Gemini.Value
}.

Record CreateTaskResponse : Type := mkCreateTaskResponse { result : string }.

(** [CreateTaskRequest] as [serde_json] serialises it. *)
Definition create_task_request (image_url : string) (enable_pbr : bool) : Gemini.Value :=
  Gemini.JObject [("image_url", Gemini.JString image_url); ("enable_pbr", Gemini.JBool enable_pbr)].

(** The answer to the request, and the requests sent (at most one). *)
Definition create_image_to_3d_task (api_key : option string)
    (send : Request -> http_outcome CreateTaskResponse) (base64_image : string)
  : Result string string * list Request :=
  match api_key with
  | None => (Err "MESHY_AI_API_KEY not found", [])
  | Some k =>
      let url := "https://api.meshy.ai/openapi/v1/image-to-3d" in
      let data_uri := "data:image/png;base64," ++ base64_image in
      let req := mkRequest "POST" url (Some ("Bearer " ++ k))
                           (Some (create_task_request data_uri true)) in
      (match send req with
       | SendErr e => Err ("Failed to send Meshy request: " ++ e)
       | Resp code _ text json =>
           if negb (is_success code) then Err ("Meshy API Error: " ++ text)
           else match json with
                | inl response_data => Ok (result response_data)
                | inr e => Err ("Failed to parse Meshy response: " ++ e)
                end
       end, [req])
  end.

End MeshyCreate.

(** ** The Gemini calls ([gemini.rs]) *)
Module GeminiHttp.
Import Gemini.

Inductive Part : Type :=
| PText (text : string)
| PInlineData (mime_type : string) (data : string).

Record GenerateContentRequest : Type := mkGenerateContentRequest {
  req_url : string;
  contents : list (list Part);               (* [Content { parts }] *)
  generation_config : option string          (* [responseMimeType] *)
}.

Record CandidatePart : Type := mkCandidatePart { text : string }.
Record CandidateContent : Type := mkCandidateContent { parts : list CandidatePart }.
Record Candidate : Type := mkCandidate { content : CandidateContent }.
Record GenerateContentResponse : Type := mkGenerateContentResponse {
  candidates : list Candidate
}.

Record ImageInlineData : Type := mkImageInlineData { data : string }.
Record ImageCandidatePart : Type := mkImageCandidatePart { inline_data : option ImageInlineData }.
Record ImageCandidateContent : Type := mkImageCandidateContent { image_parts : list ImageCandidatePart }.
Record ImageCandidate : Type := mkImageCandidate { image_content : ImageCandidateContent }.
Record GenerateImageContentResponse : Type := mkGenerateImageContentResponse {
  image_candidates : list ImageCandidate
}.

(** [slice.get(0)] *)
Definition get0 {A} (l : list A) : option A :=
  match l with [] => None | x :: _ => Some x end.

Section Status.

(** The fixed Japanese prompt of [generate_robot_status]. *)
Variable prompt : string.
(** [serde_json::from_str::<Value>] on the candidate text. *)
Variable parse_json : string -> option Value.

Definition generate_robot_status (api_key : option string)
    (send : GenerateContentRequest -> http_outcome GenerateContentResponse)
    (base64_image : string) : Result RobotStatus string :=
  match api_key with
  | None => Err "GEMINI_API_KEY not found in environment variables"
  | Some k =>
      let url := "https://generativelanguage.googleapis.com/v1beta/models/gemini-2.5-flash:generateContent?key=" ++ k in
      let request_body :=
        mkGenerateContentRequest url
          [[PText prompt; PInlineData "image/png" base64_image]] (Some "application/json") in
      match send request_body with
      | SendErr e => Err ("Failed to send request: " ++ e)
      | Resp code _ error_text json =>
          if negb (is_success code) then Err ("Gemini API Error: " ++ error_text)
          else match json with
               | inr e => Err ("Failed to parse response JSON: " ++ e)
               | inl response_data =>
                   match get0 (candidates response_data) with
                   | None => Err "No candidates returned"
                   | Some c =>
                       match get0 (parts (content c)) with
                       | None => Err "No parts returned"
                       | Some p => robot_status_of_text (parse_json (text p))
                       end
                   end
               end
      end
  end.

End Status.

Definition instruction_suffix : string :=
  ", highly zoomed out, full A-pose with slightly spread arms. The ENTIRE body from the top of the head to the bottom of the feet MUST be completely visible inside the frame. Leave plenty of empty white space around the character. DO NOT crop the image at the ankles or head. single white background `#FFFFFF`, mechanical combat robot design, clear silhouette.".

Definition generate_robot_image (api_key : option string)
    (send : GenerateContentRequest -> http_outcome GenerateImageContentResponse)
    (prompt : string) : Result string string :=
  match api_key with
  | None => Err "GEMINI_API_KEY not found"
  | Some k =>
      let url := "https://generativelanguage.googleapis.com/v1beta/models/nano-banana-pro-preview:generateContent?key=" ++ k in
      let instruction_prompt := prompt ++ instruction_suffix in
      let request_body := mkGenerateContentRequest url [[PText instruction_prompt]] None in
      match send request_body with
      | SendErr e => Err ("Failed to send request: " ++ e)
      | Resp code _ error_text json =>
          if negb (is_success code) then Err ("NanoBanana API Error: " ++ error_text)
          else match json with
               | inr e => Err ("Failed to parse NanoBanana response JSON: " ++ e)
               | inl response_data =>
                   let b64 :=
                     match get0 (image_candidates response_data) with
                     | None => None
                     | Some c =>
                         match get0 (image_parts (image_content c)) with
                         | None => None
                         | Some p => option_map data (inline_data p)
                         end
                     end in
                   match b64 with
                   | Some d => Ok d
                   | None => Err "No image data returned from NanoBanana API"
                   end
               end
      end
  end.

End GeminiHttp.

(** ** Downloading a GLB file ([meshy.rs], [download_glb]) *)
Module Download.

(** The file system: file contents by path, and the directories made. *)
Record Fs : Type := mkFs {
  files : string -> option (list Byte.byte);
  dirs : list string
}.

Definition write_file (fs : Fs) (path : string) (bytes : list Byte.byte) : Fs :=
  mkFs (fun p => if String.eqb p path then Some bytes else files fs p) (dirs fs).

Definition make_dir (fs : Fs) (dir : string) : Fs :=
  mkFs (files fs) (if existsb (String.eqb dir) (dirs fs) then dirs fs else dirs fs ++ [dir]).

(** [client.get(url).send()] followed by [res.bytes()]. *)
Inductive glb_response : Type :=
| GSendErr (e : string)
| GResp (code : N) (status_display : string) (bytes : Result (list Byte.byte) string).

(** What the platform answers: the app data directory and the failures of
    [create_dir_all], [File::create] and [write_all] (the number of bytes
    written before a write error). *)
Record Platform : Type := mkPlatform {
  app_data_dir : Result string string;
  create_dir_all_err : string -> option string;
  create_err : string -> option string;
  write_err : string -> option (nat * string)
}.

Definition download_glb (pf : Platform) (send : string -> glb_response)
    (url filename : string) (fs : Fs) : Result string string * Fs :=
  match send url with
  | GSendErr e => (Err ("Failed to request GLB: " ++ e), fs)
  | GResp code disp body =>
      if negb (is_success code) then (Err ("Failed to download GLB: " ++ disp), fs)
      else match body with
           | Err e => (Err ("Failed to read bytes: " ++ e), fs)
           | Ok bytes =>
               match app_data_dir pf with
               | Err e => (Err ("Could not get app data dir: " ++ e), fs)
               | Ok dir =>
                   match create_dir_all_err pf dir with
                   | Some e => (Err ("Failed to create AppData directory: " ++ e), fs)
                   | None =>
                       let fs1 := make_dir fs dir in
                       let file_path := Pipeline.join dir filename in
                       match create_err pf file_path with
                       | Some e => (Err ("Failed to create file: " ++ e), fs1)
                       | None =>
                           (* [File::create] truncates an existing file *)
                           let fs2 := write_file fs1 file_path [] in
                           match write_err pf file_path with
                           | Some (n, e) => (Err ("Failed to write to file: " ++ e),
                                             write_file fs2 file_path (firstn n bytes))
                           | None => (Ok file_path, write_file fs2 file_path bytes)
                           end
                       end
                   end
               end
           end
  end.

End Download.

(** ** The [test_meshy_generate] command ([lib.rs]) *)
Module Commands.
Import Download.


End Commands.

(** ** The [robots] table at the SQL level ([db.rs]) *)
Module DbRows.
Import Db.

(** [rusqlite::types::Value] restricted to what the table holds. *)
Inductive SqlValue : Type :=
| SqlNull
| SqlInteger (z : Z)
| SqlText (s : string).

Definition SqlValue_eqb (x y : SqlValue) : bool :=
  match x, y with
  | SqlNull, SqlNull => true
  | SqlInteger a, SqlInteger b => Z.eqb a b
  | SqlText a, SqlText b => String.eqb a b
  | _, _ => false
  end.

(** Columns of [CREATE TABLE robots], in order. *)
Definition schema_columns : list string :=
  ["id"; "name"; "lore"; "hp"; "atk"; "def"; "original_image_path"; "image_path";
   "model_path"; "attack_model_path"; "created_at"; "generation_time_ms"].

(** The column list of the INSERT statement. *)
Definition insert_columns : list string :=
  ["id"; "name"; "lore"; "hp"; "atk"; "def"; "original_image_path"; "image_path";
   "model_path"; "attack_model_path"; "created_at"; "generation_time_ms"].

(** The column list of the SELECT statement. *)
Definition select_columns : list string :=
  ["id"; "name"; "lore"; "hp"; "atk"; "def"; "original_image_path"; "image_path";
   "model_path"; "attack_model_path"; "created_at"; "generation_time_ms"].

(** [params![..]]: [?1] .. [?12]. *)
Definition robot_params (robot : RobotRecord) : list SqlValue :=
  [SqlText (id robot); SqlText (name robot); SqlText (lore robot);
   SqlInteger (hp robot); SqlInteger (atk robot); SqlInteger (def robot);
   SqlText (original_image_path robot); SqlText (image_path robot);
   SqlText (model_path robot); SqlText (attack_model_path robot);
   SqlInteger (created_at robot); SqlInteger (generation_time_ms robot)].

Fixpoint assoc (k : string) (l : list (string * SqlValue)) : SqlValue :=
  match l with
  | [] => SqlNull
  | (k', v) :: rest => if String.eqb k k' then v else assoc k rest
  end.

(** A stored row: its values in schema column order. *)
Definition Row : Type := list SqlValue.
Definition Table : Type := list Row.

(** The row an INSERT of [vals] into [cols] creates; an unnamed column is
    NULL. *)
Definition row_of_insert (cols : list string) (vals : list SqlValue) : Row :=
  map (fun c => assoc c (combine cols vals)) schema_columns.

(** [insert_robot]: [id] is the PRIMARY KEY. *)
Definition insert_robot (table : Table) (robot : RobotRecord) : Result Table string :=
  let row := row_of_insert insert_columns (robot_params robot) in
  if existsb (fun r => SqlValue_eqb (assoc "id" (combine schema_columns r)) (SqlText (id robot)))
             table
  then Err "UNIQUE constraint failed: robots.id"
  else Ok (table ++ [row])%list.

(** The values one SELECT row yields, in [select_columns] order. *)
Definition select_row (row : Row) : list SqlValue :=
  map (fun c => assoc c (combine schema_columns row)) select_columns.

(** [rusqlite::types::FromSqlError] / the [Error] of [row.get]. *)
Inductive GetError : Type :=
| InvalidColumnIndex (idx : nat)
| InvalidColumnType (idx : nat)
| IntegralValueOutOfRange (idx : nat) (value : Z).

Definition i64_min : Z := - 2 ^ 63.

(** [row.get::<_, String>(i)] *)
Definition get_string (vals : list SqlValue) (i : nat) : Result string GetError :=
  match nth_error vals i with
  | None => Err (InvalidColumnIndex i)
  | Some (SqlText s) => Ok s
  | Some _ => Err (InvalidColumnType i)
  end.

(** [row.get::<_, i32>(i)]: [i32::try_from] of the stored integer. *)
Definition get_i32 (vals : list SqlValue) (i : nat) : Result Z GetError :=
  match nth_error vals i with
  | None => Err (InvalidColumnIndex i)
  | Some (SqlInteger z) => if Gemini.in_i32 z then Ok z else Err (IntegralValueOutOfRange i z)
  | Some _ => Err (InvalidColumnType i)
  end.

(** [row.get::<_, i64>(i)]; SQLite integers are 64-bit. *)
Definition get_i64 (vals : list SqlValue) (i : nat) : Result Z GetError :=
  match nth_error vals i with
  | None => Err (InvalidColumnIndex i)
  | Some (SqlInteger z) => Ok z
  | Some _ => Err (InvalidColumnType i)
  end.

Definition rbind {A B E} (r : Result A E) (k : A -> Result B E) : Result B E :=
  match r with Ok a => k a | Err e => Err e end.

(** The closure given to [query_map]. *)
Definition robot_of_row (vals : list SqlValue) : Result RobotRecord GetError :=
  rbind (get_string vals 0) (fun id =>
  rbind (get_string vals 1) (fun name =>
  rbind (get_string vals 2) (fun lore =>
  rbind (get_i32 vals 3) (fun hp =>
  rbind (get_i32 vals 4) (fun atk =>
  rbind (get_i32 vals 5) (fun def =>
  rbind (get_string vals 6) (fun original_image_path =>
  rbind (get_string vals 7) (fun image_path =>
  rbind (get_string vals 8) (fun model_path =>
  rbind (get_string vals 9) (fun attack_model_path =>
  rbind (get_i64 vals 10) (fun created_at =>
  rbind (get_i64 vals 11) (fun generation_time_ms =>
  Ok (mkRobotRecord id name lore hp atk def original_image_path image_path model_path
                    attack_model_path created_at generation_time_ms))))))))))))).

(** [get_robots]: the rows of a table scan; the first row that fails to
    convert makes the whole call fail ([robots.push(robot?)]). *)
Fixpoint collect (rows : Table) (acc : list RobotRecord) : Result (list RobotRecord) GetError :=
  match rows with
  | [] => Ok acc
  | row :: rest =>
      match robot_of_row (select_row row) with
      | Err e => Err e
      | Ok robot => collect rest (acc ++ [robot])%list
      end
  end.

Definition get_robots (table : Table) : Result (list RobotRecord) GetError := collect table [].

End DbRows.

(** * Auxiliary definitions and sample inputs *)

(** The fields the derived visitor of [RobotStatus] collects from an
    object's entries, in entry order. *)
Module StatusFields.
Import Gemini.

Definition known_fields (entries : list (string * Value)) : list (field * Value) :=
  flat_map (fun kv : string * Value =>
              match field_of_key (fst kv) with Some f => [(f, snd kv)] | None => [] end) entries.

End StatusFields.

Module Samples.
Import Download.

Definition sample_fs : Fs := mkFs (fun _ => None) [].


(** A disk that fills up after one byte of every write. *)
Definition full_disk_pf : Platform :=
  mkPlatform (Ok "/data") (fun _ => None) (fun _ => None) (fun _ => Some (1%nat, "disk full")).

Definition glb_send : string -> glb_response :=
  fun _ => GResp 200 "200 OK" (Ok [Byte.x67; Byte.x6c]).



Definition stats_reply : GeminiHttp.GenerateContentResponse :=
  GeminiHttp.mkGenerateContentResponse
    [GeminiHttp.mkCandidate (GeminiHttp.mkCandidateContent
       [GeminiHttp.mkCandidatePart "{}"; GeminiHttp.mkCandidatePart "ignored"])].

(** An image reply whose first part is text and whose second part is the
    image. *)
Definition text_then_image : GeminiHttp.GenerateImageContentResponse :=
  GeminiHttp.mkGenerateImageContentResponse
    [GeminiHttp.mkImageCandidate (GeminiHttp.mkImageCandidateContent
       [GeminiHttp.mkImageCandidatePart None;
        GeminiHttp.mkImageCandidatePart (Some (GeminiHttp.mkImageInlineData "iVBORw0KGgo="))])].

(** Every stage of the pipeline succeeds. *)
Definition scenario_ok_env : Pipeline.Env :=
  Pipeline.mkEnv
    (Some "msy_key")
    (fun _ => Ok Classify.sample_stats)
    (fun _ => Ok "R0VOSU1H")
    (fun _ => Ok "mesh-1")
    (fun _ _ => Classify.ok_resp (Classify.mesh_status_of "SUCCEEDED" 100 (Some "https://x/y.glb")))
    "/data"
    (fun _ => Ok [])
    (fun _ _ => Ok tt)
    (fun _ => Ok "rig-1")
    (fun _ _ => Classify.ok_resp (Meshy.mkTaskStatusResponse "rig-1" "SUCCEEDED" 100 None None))
    (fun _ a => if N.eqb a 0 then Ok "anim-idle" else Ok "anim-attack")
    (fun _ _ => Classify.ok_resp (Meshy.Anim.mkAnimationTaskStatusResponse "SUCCEEDED" (Some 100%N)
                   (Some (Meshy.Anim.mkAnimationUrls (Some "https://x/a.glb")))))
    (fun _ f => Ok (Pipeline.join "/data" f))
    5000 1760000000 "uuid-1" None None.

Definition scenario_ok_record : Db.RobotRecord :=
  Db.mkRobotRecord "uuid-1" "Onigiri Titan" "Built by Oishii Industry." 1200 60 25
    "/data/mesh-1_original.png" "/data/mesh-1_gen.png"
    "/data/mesh-1_idle.glb" "/data/mesh-1_attack.glb" 1760000000 5000.

Definition sample_robot : Db.RobotRecord :=
  Db.mkRobotRecord "uuid-1" "Onigiri Titan" "Built by Oishii Industry." 1200 60 25
                   "/data/m_original.png" "/data/m_gen.png" "/data/m_idle.glb" "/data/m_attack.glb"
                   1760000000 5000.

Definition sample_robot_2 : Db.RobotRecord :=
  Db.mkRobotRecord "uuid-3" "Sushi Knight" "" 900 70 30 "" "" "" "" 1760000100 4000.

(** A record whose [hp] does not fit in an [i32]. *)
Definition overflow_robot : Db.RobotRecord :=
  Db.mkRobotRecord "uuid-2" "Big" "" (2 ^ 31) 60 25 "" "" "" "" 0 0.

(** A row whose [hp] does not fit in an [i32]. *)
Definition overflow_row : DbRows.Row :=
  DbRows.row_of_insert DbRows.insert_columns (DbRows.robot_params overflow_robot).

(** Answers of an animation status endpoint: IN_PROGRESS [n] times, then
    SUCCEEDED with the URL [u]. *)
Definition anim_after (n : nat) (u : string) : nat -> http_outcome Meshy.Anim.AnimationTaskStatusResponse :=
  fun k => if Nat.ltb k n
           then Classify.ok_resp (Meshy.Anim.mkAnimationTaskStatusResponse "IN_PROGRESS" (Some 50%N) None)
           else Classify.ok_resp (Meshy.Anim.mkAnimationTaskStatusResponse "SUCCEEDED" (Some 100%N)
                                    (Some (Meshy.Anim.mkAnimationUrls (Some u)))).

(** End-to-end scenario B: the Idle job succeeds at its 2nd status request,
    the Attack job at its 5th. *)
Definition scenario_b_env : Pipeline.Env :=
  Pipeline.mkEnv
    (Some "msy_key")
    (fun _ => Ok Classify.sample_stats)
    (fun _ => Ok "R0VOSU1H")
    (fun _ => Ok "mesh-1")
    (fun _ _ => Classify.ok_resp (Classify.mesh_status_of "SUCCEEDED" 100 (Some "https://x/y.glb")))
    "/data"
    (fun _ => Ok [])
    (fun _ _ => Ok tt)
    (fun _ => Ok "rig-1")
    (fun _ _ => Classify.ok_resp (Meshy.mkTaskStatusResponse "rig-1" "SUCCEEDED" 100 None None))
    (fun _ a => if N.eqb a 0 then Ok "anim-idle" else Ok "anim-attack")
    (fun id => if String.eqb id "anim-idle" then anim_after 1 "https://x/idle.glb"
               else anim_after 4 "https://x/attack.glb")
    (fun _ f => Ok (Pipeline.join "/data" f))
    5000 1760000000 "uuid-1" None None.

Definition scenario_b_record : Db.RobotRecord :=
  Db.mkRobotRecord "uuid-1" "Onigiri Titan" "Built by Oishii Industry." 1200 60 25
    "/data/mesh-1_original.png" "/data/mesh-1_gen.png"
    "/data/mesh-1_idle.glb" "/data/mesh-1_attack.glb" 1760000000 5000.

(** Scenario B with the Idle job succeeding and the Attack job reporting
    FAILED. *)
Definition scenario_b_attack_fail_env : Pipeline.Env :=
  Pipeline.mkEnv
    (Some "msy_key")
    (fun _ => Ok Classify.sample_stats)
    (fun _ => Ok "R0VOSU1H")
    (fun _ => Ok "mesh-1")
    (fun _ _ => Classify.ok_resp (Classify.mesh_status_of "SUCCEEDED" 100 (Some "https://x/y.glb")))
    "/data"
    (fun _ => Ok [])
    (fun _ _ => Ok tt)
    (fun _ => Ok "rig-1")
    (fun _ _ => Classify.ok_resp (Meshy.mkTaskStatusResponse "rig-1" "SUCCEEDED" 100 None None))
    (fun _ a => if N.eqb a 0 then Ok "anim-idle" else Ok "anim-attack")
    (fun id => if String.eqb id "anim-idle" then anim_after 1 "https://x/idle.glb"
               else fun _ => Classify.ok_resp (Meshy.Anim.mkAnimationTaskStatusResponse "FAILED" None None))
    (fun _ f => Ok (Pipeline.join "/data" f))
    5000 1760000000 "uuid-1" None None.

End Samples.

(** A run of [run_generation_pipeline] gets as far as the animation stage:
    every earlier stage succeeds, and the two animation tasks created from
    the run's rigging task are [idle] (action 0) and [atk] (action 92). *)
Module Stages.
Import Pipeline.

Definition animation_stage_reached (env : Env) (img idle atk : string) : Prop :=
  exists stats gen task_id glb_url orig_bytes gen_bytes rig_task_id,
    generate_robot_status env (clean_base64_of img) = Ok stats /\
    generate_robot_image env (Gemini.visual_description stats) = Ok gen /\
    create_image_to_3d_task env gen = Ok task_id /\
    poll_result (Meshy.poll_for_glb_url (meshy_api_key env) (mesh_status env task_id)) = Ok glb_url /\
    base64_decode env (clean_base64_of img) = Ok orig_bytes /\
    fs_write env (join (app_data_dir env) (task_id ++ "_original.png")) orig_bytes = Ok tt /\
    base64_decode env gen = Ok gen_bytes /\
    fs_write env (join (app_data_dir env) (task_id ++ "_gen.png")) gen_bytes = Ok tt /\
    create_rigging_task env task_id = Ok rig_task_id /\
    poll_result (Meshy.poll_for_rigging_success (meshy_api_key env) rig_task_id
                                                (rig_status env rig_task_id)) = Ok tt /\
    create_animation_task env rig_task_id 0 = Ok idle /\
    create_animation_task env rig_task_id 92 = Ok atk.

End Stages.

(** * Properties of the poll loops *)
Module PollFacts.
Import Meshy Classify.

Ltac glb_enter Hle :=
  cbn [poll_for_glb_url_loop]; rewrite (proj2 (Nat.ltb_ge _ _) Hle);
  cbv [bind get_task_status fetch ret].

Ltac simp_loop := cbn - [String.append string_of_N string_of_nat max_attempts Nat.ltb] in *.

Ltac close_step :=
  first [ discriminate
        | eexists; cbv [bind emit log sleep record_event ret]; cbn [fetches events];
          rewrite <- ?app_assoc; reflexivity ].

Section Glb.
Variable key : string.
Variable obs : nat -> http_outcome TaskStatusResponse.

Lemma glb_loop_continue fuel a s :
  a <= max_attempts -> glb_continues (obs (fetches s)) = true ->
  exists evs,
    poll_for_glb_url_loop (Some key) obs (S fuel) a s =
    poll_for_glb_url_loop (Some key) obs fuel (S a)
                          (mk_poll_state (S (fetches s)) (events s ++ evs)).
Proof.
  intros Hle Hc. glb_enter Hle.
  destruct (obs (fetches s)) as [e | code disp text json]; simp_loop.
  - close_step.
  - destruct (is_success code); simp_loop; [| close_step].
    destruct json as [st | e]; simp_loop; [| close_step].
    destruct (String.eqb (status st) "PENDING") eqn:Ep.
    + apply String.eqb_eq in Ep. rewrite Ep. simp_loop. close_step.
    + destruct (String.eqb (status st) "IN_PROGRESS") eqn:Ei; [| simp_loop; discriminate].
      apply String.eqb_eq in Ei. rewrite Ei. simp_loop. close_step.
Qed.

Lemma glb_loop_skip j : forall fuel a s,
  a + j <= S max_attempts -> j <= fuel ->
  (forall n, fetches s <= n < fetches s + j -> glb_continues (obs n) = true) ->
  exists evs,
    poll_for_glb_url_loop (Some key) obs fuel a s =
    poll_for_glb_url_loop (Some key) obs (fuel - j) (a + j)
                          (mk_poll_state (fetches s + j) (events s ++ evs)).
Proof.
  induction j as [| j IH]; intros fuel a s Ha Hf Hc.
  - exists []. destruct s as [f ev]. cbn. rewrite Nat.sub_0_r, Nat.add_0_r, Nat.add_0_r, app_nil_r.
    reflexivity.
  - destruct fuel as [| fuel]; [lia |].
    destruct (glb_loop_continue fuel a s) as [evs1 E1]; [lia | apply Hc; lia |].
    rewrite E1.
    destruct (IH fuel (S a) (mk_poll_state (S (fetches s)) (events s ++ evs1))) as [evs2 E2];
      cbn; [lia | lia | intros n Hn; apply Hc; lia |].
    rewrite E2. exists (evs1 ++ evs2)%list. cbn.
    rewrite <- app_assoc. f_equal; [lia | f_equal; lia].
Qed.

End Glb.
Ltac rig_enter := cbn [poll_for_rigging_success_loop poll_for_animation_glb_loop]; cbv [bind fetch ret].

Ltac budget_left H := rewrite (proj2 (Nat.ltb_ge _ _) H).
Ltac budget_gone H := rewrite (proj2 (Nat.ltb_lt _ _) H).

Ltac destruct_eqb lit :=
  match goal with |- context [String.eqb ?x lit] => destruct (String.eqb x lit) end.

(** The status dispatch of the rigging and animation loops when the answer
    is a non-terminal status or a transport error. *)
Ltac rig_cases obs Hc k :=
  destruct (obs (fetches _)) as [e | code disp text json]; simp_loop;
  [ k
  | destruct json as [st | e]; simp_loop; [| discriminate];
    destruct (is_success code); simp_loop; [| discriminate];
    unfold rig_terminal in Hc;
    destruct_eqb "SUCCEEDED"; simp_loop; [discriminate |];
    destruct_eqb "FAILED"; simp_loop; [discriminate |];
    destruct_eqb "CANCELED"; simp_loop; [discriminate |]; k ].

Section Rig.
Variable key task_id : string.
Variable obs : nat -> http_outcome TaskStatusResponse.

Lemma rig_loop_continue fuel a s :
  S a <= max_attempts -> rig_continues (obs (fetches s)) = true ->
  exists evs,
    poll_for_rigging_success_loop task_id obs (S fuel) a s =
    poll_for_rigging_success_loop task_id obs fuel (S a)
                                  (mk_poll_state (S (fetches s)) (events s ++ evs)).
Proof.
  intros Hle Hc. rig_enter. rig_cases obs Hc ltac:(budget_left Hle; close_step).
Qed.

Lemma rig_loop_last fuel a s :
  max_attempts < S a -> rig_continues (obs (fetches s)) = true ->
  exists evs,
    poll_for_rigging_success_loop task_id obs (S fuel) a s =
    (Some (Err "Timeout waiting for Rigging task"),
     mk_poll_state (S (fetches s)) (events s ++ evs)).
Proof.
  intros Hlt Hc. rig_enter. rig_cases obs Hc ltac:(budget_gone Hlt; close_step).
Qed.

Lemma rig_loop_skip j : forall fuel a s,
  a + j <= max_attempts -> j <= fuel ->
  (forall n, fetches s <= n < fetches s + j -> rig_continues (obs n) = true) ->
  exists evs,
    poll_for_rigging_success_loop task_id obs fuel a s =
    poll_for_rigging_success_loop task_id obs (fuel - j) (a + j)
                                  (mk_poll_state (fetches s + j) (events s ++ evs)).
Proof.
  induction j as [| j IH]; intros fuel a s Ha Hf Hc.
  - exists []. destruct s as [f ev]. cbn. rewrite Nat.sub_0_r, Nat.add_0_r, Nat.add_0_r, app_nil_r.
    reflexivity.
  - destruct fuel as [| fuel]; [lia |].
    destruct (rig_loop_continue fuel a s) as [evs1 E1]; [lia | apply Hc; lia |].
    rewrite E1.
    destruct (IH fuel (S a) (mk_poll_state (S (fetches s)) (events s ++ evs1))) as [evs2 E2];
      cbn; [lia | lia | intros n Hn; apply Hc; lia |].
    rewrite E2. exists (evs1 ++ evs2)%list. cbn.
    rewrite <- app_assoc. f_equal; [lia | f_equal; lia].
Qed.

End Rig.

Section AnimLoop.
Variable key task_id anim_name : string.
Variable obs : nat -> http_outcome Anim.AnimationTaskStatusResponse.

Lemma anim_loop_continue fuel a s :
  S a <= max_attempts -> anim_continues (obs (fetches s)) = true ->
  exists evs,
    poll_for_animation_glb_loop task_id anim_name obs (S fuel) a s =
    poll_for_animation_glb_loop task_id anim_name obs fuel (S a)
                                (mk_poll_state (S (fetches s)) (events s ++ evs)).
Proof.
  intros Hle Hc. rig_enter. rig_cases obs Hc ltac:(budget_left Hle; close_step).
Qed.

Lemma anim_loop_last fuel a s :
  max_attempts < S a -> anim_continues (obs (fetches s)) = true ->
  exists evs,
    poll_for_animation_glb_loop task_id anim_name obs (S fuel) a s =
    (Some (Err ("Timeout waiting for Animation task (" ++ anim_name ++ ")")),
     mk_poll_state (S (fetches s)) (events s ++ evs)).
Proof.
  intros Hlt Hc. rig_enter. rig_cases obs Hc ltac:(budget_gone Hlt; close_step).
Qed.

Lemma anim_loop_skip j : forall fuel a s,
  a + j <= max_attempts -> j <= fuel ->
  (forall n, fetches s <= n < fetches s + j -> anim_continues (obs n) = true) ->
  exists evs,
    poll_for_animation_glb_loop task_id anim_name obs fuel a s =
    poll_for_animation_glb_loop task_id anim_name obs (fuel - j) (a + j)
                                (mk_poll_state (fetches s + j) (events s ++ evs)).
Proof.
  induction j as [| j IH]; intros fuel a s Ha Hf Hc.
  - exists []. destruct s as [f ev]. cbn. rewrite Nat.sub_0_r, Nat.add_0_r, Nat.add_0_r, app_nil_r.
    reflexivity.
  - destruct fuel as [| fuel]; [lia |].
    destruct (anim_loop_continue fuel a s) as [evs1 E1]; [lia | apply Hc; lia |].
    rewrite E1.
    destruct (IH fuel (S a) (mk_poll_state (S (fetches s)) (events s ++ evs1))) as [evs2 E2];
      cbn; [lia | lia | intros n Hn; apply Hc; lia |].
    rewrite E2. exists (evs1 ++ evs2)%list. cbn.
    rewrite <- app_assoc. f_equal; [lia | f_equal; lia].
Qed.

End AnimLoop.

Ltac glb_at Hle Hobs Hsucc :=
  glb_enter Hle; rewrite Hobs; simp_loop; rewrite Hsucc; simp_loop.

Ltac rig_at Hobs Hsucc :=
  rig_enter; rewrite Hobs; simp_loop; rewrite Hsucc; simp_loop.

Lemma glb_loop_succeeded key obs fuel a s code disp text st urls g :
  a <= max_attempts -> obs (fetches s) = Resp code disp text (inl st) ->
  is_success code = true -> status st = "SUCCEEDED" ->
  model_urls st = Some urls -> glb urls = Some g ->
  poll_for_glb_url_loop (Some key) obs (S fuel) a s =
  (Some (Ok g), mk_poll_state (S (fetches s)) (events s)).
Proof.
  intros Hle Hobs Hsucc Hst Hu Hg. glb_at Hle Hobs Hsucc.
  rewrite Hst, Hu, Hg. reflexivity.
Qed.

Lemma anim_loop_succeeded task_id anim_name obs fuel a s code disp text st r g :
  obs (fetches s) = Resp code disp text (inl st) ->
  is_success code = true -> Anim.status st = "SUCCEEDED" ->
  Anim.result st = Some r -> Anim.animation_glb_url r = Some g ->
  poll_for_animation_glb_loop task_id anim_name obs (S fuel) a s =
  (Some (Ok g), mk_poll_state (S (fetches s)) (events s)).
Proof.
  intros Hobs Hsucc Hst Hr Hg. rig_at Hobs Hsucc.
  rewrite Hst, Hr, Hg. reflexivity.
Qed.

Lemma send_err_glb_continues (obs : nat -> http_outcome TaskStatusResponse) :
  (forall n, exists e, obs n = SendErr e) -> forall n, glb_continues (obs n) = true.
Proof. intros H n. destruct (H n) as [e ->]. reflexivity. Qed.

Lemma send_err_rig_continues (obs : nat -> http_outcome TaskStatusResponse) :
  (forall n, exists e, obs n = SendErr e) -> forall n, rig_continues (obs n) = true.
Proof. intros H n. destruct (H n) as [e ->]. reflexivity. Qed.

Lemma send_err_anim_continues (obs : nat -> http_outcome Anim.AnimationTaskStatusResponse) :
  (forall n, exists e, obs n = SendErr e) -> forall n, anim_continues (obs n) = true.
Proof. intros H n. destruct (H n) as [e ->]. reflexivity. Qed.

End PollFacts.

(** * Properties of the stats fallback *)
Module StatsFacts.
Import Gemini.

Lemma serde_wrapped_fails w inner : serde_robot_status (JObject [(w, JObject inner)]) = None.
Proof. cbn. destruct (field_of_key w) as [[] |]; reflexivity. Qed.

Lemma find_string_wrap w inner keys :
  find_string (JObject [(w, JObject inner)]) keys = find_string (JObject inner) keys.
Proof.
  remember (JObject inner) as v eqn:Hv. cbn [find_string].
  replace (as_str v) with (@None string) by (subst; reflexivity).
  destruct (key_matches keys w), (find_string v keys); reflexivity.
Qed.

Lemma find_i32_wrap w inner keys :
  find_i32 (JObject [(w, JObject inner)]) keys = find_i32 (JObject inner) keys.
Proof.
  remember (JObject inner) as v eqn:Hv. cbn [find_i32].
  replace (as_i64 v) with (@None Z) by (subst; reflexivity).
  destruct (key_matches keys w), (find_i32 v keys); reflexivity.
Qed.

Lemma find_string_flat keys (f : string -> bool) sx entries :
  (forall k v, In (k, v) entries -> key_matches keys k = f k) ->
  (forall k v, In (k, v) entries -> f k = true -> v = JString sx) ->
  (forall k v, In (k, v) entries -> forall ks, find_string v ks = None) ->
  find_string (JObject entries) keys =
  if existsb (fun '(k, _) => f k) entries then Some sx else None.
Proof.
  induction entries as [| [k v] rest IH]; intros Hm Hv Hs; [reflexivity |].
  change (find_string (JObject ((k, v) :: rest)) keys) with
    (match (if key_matches keys k then as_str v else None) with
     | Some s => Some s
     | None => match find_string v keys with
               | Some res => Some res
               | None => find_string (JObject rest) keys
               end
     end).
  rewrite (Hm k v (or_introl eq_refl)), (Hs k v (or_introl eq_refl) keys).
  destruct (f k) eqn:Ef.
  - rewrite (Hv k v (or_introl eq_refl) Ef). cbn. rewrite Ef. reflexivity.
  - cbn. rewrite Ef. apply IH; intros k' v' Hin; [apply (Hm k' v') | apply (Hv k' v') | apply (Hs k' v')]; right; exact Hin.
Qed.

Lemma find_i32_flat keys (f : string -> bool) z entries :
  (forall k v, In (k, v) entries -> key_matches keys k = f k) ->
  (forall k v, In (k, v) entries -> f k = true -> v = JNumber (NInt z)) ->
  (forall k v, In (k, v) entries -> forall ks, find_i32 v ks = None) ->
  (z <=? i64_max)%Z = true ->
  find_i32 (JObject entries) keys =
  if existsb (fun '(k, _) => f k) entries then Some (wrap_i32 z) else None.
Proof.
  induction entries as [| [k v] rest IH]; intros Hm Hv Hs Hz; [reflexivity |].
  change (find_i32 (JObject ((k, v) :: rest)) keys) with
    (match (if key_matches keys k then option_map wrap_i32 (as_i64 v) else None) with
     | Some n => Some n
     | None => match find_i32 v keys with
               | Some res => Some res
               | None => find_i32 (JObject rest) keys
               end
     end).
  rewrite (Hm k v (or_introl eq_refl)), (Hs k v (or_introl eq_refl) keys).
  destruct (f k) eqn:Ef.
  - rewrite (Hv k v (or_introl eq_refl) Ef). cbn - [i64_max]. rewrite Hz, Ef. reflexivity.
  - cbn. rewrite Ef. apply IH; [intros k' v' Hin; apply (Hm k' v') | intros k' v' Hin; apply (Hv k' v')
                   | intros k' v' Hin; apply (Hs k' v') | exact Hz]; right; exact Hin.
Qed.

Lemma wrap_i32_id z : in_i32 z = true -> wrap_i32 z = z.
Proof.
  unfold in_i32, wrap_i32. intros H. apply andb_prop in H as [H1 H2].
  apply Z.leb_le in H1. apply Z.ltb_lt in H2.
  rewrite Z.mod_small; lia.
Qed.

Lemma in_i32_i64 z : in_i32 z = true -> (z <=? i64_max)%Z = true.
Proof.
  unfold in_i32, i64_max. intros H. apply andb_prop in H as [_ H].
  apply Z.ltb_lt in H. apply Z.leb_le. lia.
Qed.

Ltac canon_in Hincl :=
  let k := fresh "k" in let v := fresh "v" in let Hin := fresh "Hin" in
  let E := fresh "E" in
  intros k v Hin; apply Hincl in Hin; cbn in Hin;
  destruct Hin as [E | [E | [E | [E | [E | [E | []]]]]]]; injection E as <- <-.

Ltac lower_rw :=
  repeat match goal with
         | H : to_lowercase ?k = _ |- context [to_lowercase ?k] => rewrite H
         end.

Ltac key_ok :=
  unfold key_matches; lower_rw; cbn;
  match goal with |- _ = String.eqb ?a ?b => destruct (String.eqb_spec a b) end;
  first [reflexivity | congruence].

Ltac stats_side Hincl :=
  canon_in Hincl;
  first [ key_ok
        | let Hf := fresh "Hf" in
          intros Hf; apply String.eqb_eq in Hf; first [reflexivity | congruence]
        | intros ?; reflexivity ].

End StatsFacts.

(** * Properties of the orchestrator *)
Module PipelineFacts.
Import Pipeline.

Ltac unfold_run :=
  cbv [run_generation_pipeline pbind lift pret lock_store insert_robot].

(** Split on every stage outcome, in source order. *)
Ltac run_cases :=
  repeat (match goal with
          | |- context [match ?x with Ok _ => _ | Err _ => _ end] => destruct x eqn:?
          | |- context [match ?x with Some _ => _ | None => _ end] => destruct x eqn:?
          end; cbv beta iota zeta).

Lemma db_insert_appends st robot st' :
  Db.insert_robot st robot = Ok st' -> st' = (st ++ [robot])%list.
Proof.
  unfold Db.insert_robot. destruct (existsb _ st); intros H; [discriminate | congruence].
Qed.

End PipelineFacts.

(** * Facts about the remaining code *)

(** The poll loops end within their attempt budget. *)
Module BoundFacts.
Import Meshy Classify PollFacts.

Ltac bound_done IH :=
  first [ do 2 eexists; split; [reflexivity | cbn; lia]
        | cbv [bind emit log sleep record_event ret];
          match goal with
          | |- context [?g (S ?a) ?st] =>
              let r := fresh "r" in let s' := fresh "s'" in
              let E := fresh "E" in let B := fresh "B" in
              destruct (IH (S a) st) as (r & s' & E & B); [cbn; lia | cbn; lia |];
              rewrite E; exists r, s'; split; [reflexivity | cbn in B |- *; lia]
          end ].

Lemma glb_loop_bounded key obs : forall fuel a s,
  S max_attempts < fuel + a -> a <= S max_attempts ->
  exists r s', poll_for_glb_url_loop key obs fuel a s = (Some r, s') /\
    fetches s <= fetches s' /\ fetches s' + a <= fetches s + S max_attempts.
Proof.
  induction fuel as [| fuel IH]; intros a s Hf Ha; [cbn in Hf; lia |].
  cbn [poll_for_glb_url_loop]. destruct (Nat.ltb max_attempts a) eqn:Hlt.
  - apply Nat.ltb_lt in Hlt.
    exists (Err "Timeout waiting for Meshy AI task"), s. split; [reflexivity | lia].
  - apply Nat.ltb_ge in Hlt. cbv [get_task_status fetch].
    destruct key as [k |].
    + cbv [bind ret]. destruct (obs (fetches s)) as [e | code disp text json]; simp_loop.
      * bound_done IH.
      * destruct (is_success code); simp_loop; [| bound_done IH].
        destruct json as [st | e]; simp_loop; [| bound_done IH].
        destruct_eqb "SUCCEEDED"; simp_loop; [bound_done IH |].
        destruct_eqb "FAILED"; simp_loop; [bound_done IH |].
        destruct_eqb "PENDING"; simp_loop; [bound_done IH |].
        destruct_eqb "IN_PROGRESS"; simp_loop; bound_done IH.
    + cbv [bind ret]. simp_loop. bound_done IH.
Qed.

Ltac after_poll_done IH :=
  match goal with
  | |- context [Nat.ltb max_attempts (S ?a)] =>
      let Hl := fresh "Hl" in
      destruct (Nat.ltb max_attempts (S a)) eqn:Hl;
      [apply Nat.ltb_lt in Hl | apply Nat.ltb_ge in Hl]; simp_loop; bound_done IH
  | _ => bound_done IH
  end.

Ltac rig_bound_cases obs IH :=
  destruct (obs (fetches _)) as [e | code disp text json]; simp_loop;
  [ after_poll_done IH
  | destruct (is_success code); simp_loop; [| bound_done IH];
    destruct json as [st | e]; simp_loop; [| bound_done IH];
    destruct_eqb "SUCCEEDED"; simp_loop; [bound_done IH |];
    destruct_eqb "FAILED"; simp_loop; [bound_done IH |];
    destruct_eqb "CANCELED"; simp_loop; [bound_done IH |];
    after_poll_done IH ].

Lemma rig_loop_bounded task_id obs : forall fuel a s,
  max_attempts < fuel + a -> a <= max_attempts ->
  exists r s', poll_for_rigging_success_loop task_id obs fuel a s = (Some r, s') /\
    fetches s <= fetches s' /\ fetches s' + a <= fetches s + S max_attempts.
Proof.
  induction fuel as [| fuel IH]; intros a s Hf Ha; [cbn in Hf; lia |].
  rig_enter. rig_bound_cases obs IH.
Qed.

Lemma anim_loop_bounded task_id anim_name obs : forall fuel a s,
  max_attempts < fuel + a -> a <= max_attempts ->
  exists r s', poll_for_animation_glb_loop task_id anim_name obs fuel a s = (Some r, s') /\
    fetches s <= fetches s' /\ fetches s' + a <= fetches s + S max_attempts.
Proof.
  induction fuel as [| fuel IH]; intros a s Hf Ha; [cbn in Hf; lia |].
  rig_enter. rig_bound_cases obs IH.
Qed.

End BoundFacts.

(** The strict decoder and the fallback search on flat objects. *)
Module FlatFacts.
Import Gemini StatusFields.
Local Open Scope list_scope.

Lemma field_eqb_eq f g : field_eqb f g = true <-> f = g.
Proof. destruct f, g; cbn; split; congruence. Qed.

Lemma visit_map_known : forall entries seen,
  NoDup (map fst (seen ++ known_fields entries)) ->
  visit_map entries seen = Some (seen ++ known_fields entries).
Proof.
  induction entries as [| [k v] rest IH]; intros seen H.
  - cbn. rewrite app_nil_r. reflexivity.
  - unfold known_fields in *. cbn [visit_map flat_map fst snd] in *. destruct (field_of_key k) as [f |] eqn:Ef.
    + assert (Hx : existsb (fun '(g, _) => field_eqb f g) seen = false).
      { apply not_true_iff_false. intros Hex. apply existsb_exists in Hex as [[g w] [Hin Hg]].
        apply field_eqb_eq in Hg. subst g.
        rewrite map_app in H. cbn in H. apply NoDup_remove_2 in H. apply H.
        apply in_or_app. left. apply in_map_iff. exists (f, w). split; [reflexivity | exact Hin]. }
      rewrite Hx. cbn [app] in H. rewrite IH; rewrite <- app_assoc; [reflexivity | exact H].
    + fold (known_fields rest) in *. apply IH. exact H.
Qed.

Lemma lookup_field_in f v : forall l,
  NoDup (map fst l) -> In (f, v) l -> lookup_field f l = Some v.
Proof.
  unfold lookup_field. induction l as [| [g w] l IH]; intros Hn Hin; [destruct Hin |].
  cbn in Hn |- *. inversion Hn as [| ? ? Hg Hn']; subst.
  destruct (field_eqb f g) eqn:E.
  - cbn. apply field_eqb_eq in E. subst g. destruct Hin as [Heq | Hin]; [congruence |].
    exfalso. apply Hg. apply in_map_iff. exists (f, v). split; [reflexivity | exact Hin].
  - destruct Hin as [Heq | Hin].
    + injection Heq as -> ->. destruct f; discriminate.
    + apply IH; assumption.
Qed.

Lemma Permutation_filter' {A} (p : A -> bool) l l' :
  Permutation l l' -> Permutation (filter p l) (filter p l').
Proof.
  induction 1 as [| x l l' _ IH | x y l | l l' l'' _ IH1 _ IH2]; cbn.
  - constructor.
  - destruct (p x); [constructor |]; exact IH.
  - destruct (p x), (p y); try constructor; try apply Permutation_refl.
  - eapply Permutation_trans; eassumption.
Qed.

Lemma find_string_none keys : forall entries,
  filter (fun kv => key_matches keys (fst kv)) entries = [] ->
  (forall k v, In (k, v) entries -> forall ks, find_string v ks = None) ->
  find_string (JObject entries) keys = None.
Proof.
  induction entries as [| [k v] rest IH]; intros Hf Hs; [reflexivity |].
  change (find_string (JObject ((k, v) :: rest)) keys) with
    (match (if key_matches keys k then as_str v else None) with
     | Some s => Some s
     | None => match find_string v keys with
               | Some res => Some res
               | None => find_string (JObject rest) keys
               end
     end).
  cbn [filter fst] in Hf. destruct (key_matches keys k); [discriminate |].
  rewrite (Hs k v (or_introl eq_refl)). apply IH; [exact Hf |].
  intros k' v' Hin. apply (Hs k' v'). right. exact Hin.
Qed.

Lemma find_string_unique keys k0 v0 : forall entries,
  filter (fun kv => key_matches keys (fst kv)) entries = [(k0, v0)] ->
  (forall k v, In (k, v) entries -> forall ks, find_string v ks = None) ->
  find_string (JObject entries) keys = as_str v0.
Proof.
  induction entries as [| [k v] rest IH]; intros Hf Hs; [discriminate |].
  change (find_string (JObject ((k, v) :: rest)) keys) with
    (match (if key_matches keys k then as_str v else None) with
     | Some s => Some s
     | None => match find_string v keys with
               | Some res => Some res
               | None => find_string (JObject rest) keys
               end
     end).
  assert (Hs' : forall k' v', In (k', v') rest -> forall ks, find_string v' ks = None)
    by (intros k' v' Hin; apply (Hs k' v'); right; exact Hin).
  rewrite (Hs k v (or_introl eq_refl)).
  cbn [filter fst] in Hf. destruct (key_matches keys k).
  - injection Hf as -> -> Hr. destruct (as_str v0); [reflexivity |].
    apply find_string_none; assumption.
  - rewrite IH; [destruct (as_str v0) | |]; auto.
Qed.

Lemma find_i32_none keys : forall entries,
  filter (fun kv => key_matches keys (fst kv)) entries = [] ->
  (forall k v, In (k, v) entries -> forall ks, find_i32 v ks = None) ->
  find_i32 (JObject entries) keys = None.
Proof.
  induction entries as [| [k v] rest IH]; intros Hf Hs; [reflexivity |].
  change (find_i32 (JObject ((k, v) :: rest)) keys) with
    (match (if key_matches keys k then option_map wrap_i32 (as_i64 v) else None) with
     | Some n => Some n
     | None => match find_i32 v keys with
               | Some res => Some res
               | None => find_i32 (JObject rest) keys
               end
     end).
  cbn [filter fst] in Hf. destruct (key_matches keys k); [discriminate |].
  rewrite (Hs k v (or_introl eq_refl)). apply IH; [exact Hf |].
  intros k' v' Hin. apply (Hs k' v'). right. exact Hin.
Qed.

Lemma find_i32_unique keys k0 v0 : forall entries,
  filter (fun kv => key_matches keys (fst kv)) entries = [(k0, v0)] ->
  (forall k v, In (k, v) entries -> forall ks, find_i32 v ks = None) ->
  find_i32 (JObject entries) keys = option_map wrap_i32 (as_i64 v0).
Proof.
  induction entries as [| [k v] rest IH]; intros Hf Hs; [discriminate |].
  change (find_i32 (JObject ((k, v) :: rest)) keys) with
    (match (if key_matches keys k then option_map wrap_i32 (as_i64 v) else None) with
     | Some n => Some n
     | None => match find_i32 v keys with
               | Some res => Some res
               | None => find_i32 (JObject rest) keys
               end
     end).
  assert (Hs' : forall k' v', In (k', v') rest -> forall ks, find_i32 v' ks = None)
    by (intros k' v' Hin; apply (Hs k' v'); right; exact Hin).
  rewrite (Hs k v (or_introl eq_refl)).
  cbn [filter fst] in Hf. destruct (key_matches keys k).
  - injection Hf as -> -> Hr. destruct (option_map wrap_i32 (as_i64 v0)); [reflexivity |].
    apply find_i32_none; assumption.
  - rewrite IH; [destruct (option_map wrap_i32 (as_i64 v0)) | |]; auto.
Qed.

Lemma find_string_scalar v ks : (forall o, v <> JObject o) -> find_string v ks = None.
Proof. destruct v; intros H; try reflexivity. exfalso. eapply H. reflexivity. Qed.

Lemma find_i32_scalar v ks : (forall o, v <> JObject o) -> find_i32 v ks = None.
Proof. destruct v; intros H; try reflexivity. exfalso. eapply H. reflexivity. Qed.

Lemma filter_perm_single {A} (p : A -> bool) l l' x :
  Permutation l l' -> filter p l' = [x] -> filter p l = [x].
Proof.
  intros Hp Hf. apply Permutation_length_1_inv. rewrite <- Hf.
  apply Permutation_filter'. symmetry. exact Hp.
Qed.

Lemma de_i32_stat v z d : de_i32 v = Some z -> unwrap_or (option_map wrap_i32 (as_i64 v)) d = z.
Proof.
  destruct v as [| | [z' |] | | |]; cbn - [i64_max in_i32 wrap_i32]; try discriminate.
  destruct (in_i32 z') eqn:Hi; intros H; [injection H as <- | discriminate].
  rewrite (StatsFacts.in_i32_i64 _ Hi). cbn. apply StatsFacts.wrap_i32_id. exact Hi.
Qed.

Lemma de_string_stat v s d : de_string v = Some s -> unwrap_or (as_str v) d = s.
Proof. unfold de_string. intros ->. reflexivity. Qed.

Ltac find_flat Hp Hobj lem key :=
  apply (lem _ key); [eapply filter_perm_single; [exact Hp | reflexivity]
                     | intros ? ? Hkv ?; apply find_string_scalar || apply find_i32_scalar;
                       eapply Hobj; exact Hkv].

Lemma known_fields_app e1 e2 : known_fields (e1 ++ e2) = known_fields e1 ++ known_fields e2.
Proof. unfold known_fields. apply flat_map_app. Qed.

Lemma known_fields_unknown extra :
  (forall k v, In (k, v) extra -> field_of_key k = None) -> known_fields extra = [].
Proof.
  induction extra as [| [k v] rest IH]; intros H; [reflexivity |].
  unfold known_fields in *. cbn. rewrite (H k v (or_introl eq_refl)). cbn.
  apply IH. intros k' v' Hin. apply (H k' v'). right. exact Hin.
Qed.

Lemma alias_field k ks f : In k ks -> (forall k', In k' ks -> field_of_key k' = Some f) ->
  field_of_key k = Some f.
Proof. intros Hk H. exact (H k Hk). Qed.

Ltac alias_case :=
  intros ? Hk'; cbn in Hk'; repeat (destruct Hk' as [<- | Hk']); [reflexivity .. | destruct Hk'].

End FlatFacts.

Module CleanFacts.
Import Pipeline.

Lemma prefix_comma c r :
  String.prefix "," (String c r) = if ascii_dec ","%char c then true else false.
Proof. destruct r; reflexivity. Qed.

Lemma contains_comma_app a b :
  contains (a ++ b) "," = contains a "," || contains b ",".
Proof.
  induction a as [| c a IH]; [reflexivity |].
  change (String c a ++ b) with (String c (a ++ b)).
  cbn [contains]. rewrite !prefix_comma, IH.
  destruct (ascii_dec ","%char c); reflexivity.
Qed.

Lemma comma_eqb c : Ascii.eqb c ","%char = true <-> c = ","%char.
Proof. apply Ascii.eqb_eq. Qed.

Lemma contains_cons_false c s :
  contains (String c s) "," = false -> c <> ","%char /\ contains s "," = false.
Proof.
  cbn [contains]. rewrite prefix_comma.
  destruct (ascii_dec ","%char c) as [E | N]; cbn; [discriminate |].
  intros H. split; [intros ->; apply N; reflexivity | exact H].
Qed.

Lemma string_app_assoc a b c : (a ++ b) ++ c = a ++ (b ++ c).
Proof. induction a as [| x a IH]; cbn; [reflexivity | rewrite IH; reflexivity]. Qed.

Lemma last_segment_no_comma s : forall acc,
  contains s "," = false -> last_segment s acc = acc ++ s.
Proof.
  induction s as [| c s IH]; intros acc H.
  - cbn. symmetry. induction acc as [| x acc IHa]; cbn; [reflexivity | rewrite IHa; reflexivity].
  - apply contains_cons_false in H as [Hc Hs]. cbn [last_segment].
    destruct (Ascii.eqb c ","%char) eqn:E; [apply comma_eqb in E; contradiction |].
    rewrite IH by exact Hs. rewrite string_app_assoc. reflexivity.
Qed.

Lemma last_segment_after_comma p s : forall acc,
  last_segment (p ++ String ","%char s) acc = last_segment s "".
Proof.
  induction p as [| c p IH]; intros acc; [reflexivity |].
  change (String c p ++ String ","%char s) with (String c (p ++ String ","%char s)).
  cbn [last_segment]. destruct (Ascii.eqb c ","%char); apply IH.
Qed.

Lemma last_segment_comma_free s : forall acc,
  contains acc "," = false -> contains (last_segment s acc) "," = false.
Proof.
  induction s as [| c s IH]; intros acc H; [exact H |].
  cbn [last_segment]. destruct (Ascii.eqb c ","%char) eqn:E.
  - apply IH. reflexivity.
  - apply IH. rewrite contains_comma_app, H. cbn [contains orb]. rewrite prefix_comma.
    destruct (ascii_dec ","%char c) as [Ec | _]; [| reflexivity].
    subst c. discriminate E.
Qed.

Lemma clean_comma_free b : contains (clean_base64_of b) "," = false.
Proof.
  unfold clean_base64_of. destruct (contains b ",") eqn:E; [| exact E].
  apply last_segment_comma_free. reflexivity.
Qed.

Lemma clean_after_last_comma p s :
  contains s "," = false -> clean_base64_of (p ++ String ","%char s) = s.
Proof.
  intros H. unfold clean_base64_of.
  rewrite contains_comma_app. cbn [contains]. rewrite prefix_comma.
  destruct (ascii_dec ","%char ","%char) as [_ | N]; [| contradiction N; reflexivity].
  rewrite orb_true_r, last_segment_after_comma, last_segment_no_comma by exact H.
  reflexivity.
Qed.

End CleanFacts.

Module DownloadFacts.
Import Download.


End DownloadFacts.

Module RowFacts.
Import Db DbRows.
Local Open Scope list_scope.

Lemma row_round_trip robot :
  Gemini.in_i32 (hp robot) = true -> Gemini.in_i32 (atk robot) = true ->
  Gemini.in_i32 (def robot) = true ->
  robot_of_row (select_row (row_of_insert insert_columns (robot_params robot))) = Ok robot.
Proof.
  intros Hh Ha Hd. destruct robot as [i n l h a d o g m am c t]. cbn in Hh, Ha, Hd.
  cbn - [Gemini.in_i32]. rewrite Hh, Ha, Hd. reflexivity.
Qed.

Lemma collect_app t1 t2 : forall acc,
  collect (t1 ++ t2) acc = rbind (collect t1 acc) (fun l => collect t2 l).
Proof.
  induction t1 as [| row t1 IH]; intros acc; [reflexivity |].
  cbn [app collect]. destruct (robot_of_row (select_row row)); [apply IH | reflexivity].
Qed.

End RowFacts.

Module RunFacts.
Import Pipeline.

Lemma db_insert_nodup st robot st' :
  NoDup (map Db.id st) -> Db.insert_robot st robot = Ok st' -> NoDup (map Db.id st').
Proof.
  unfold Db.insert_robot. destruct (existsb _ st) eqn:E; intros Hn H; [discriminate |].
  injection H as <-. rewrite map_app. cbn.
  apply Permutation_NoDup with (Db.id robot :: map Db.id st); [apply Permutation_cons_append |].
  constructor; [| exact Hn].
  intros Hin. apply in_map_iff in Hin as (x & Hx & Hx').
  assert (Ex : existsb (fun r => String.eqb (Db.id r) (Db.id robot)) st = true).
  { apply existsb_exists. exists x. split; [exact Hx' | rewrite Hx; apply String.eqb_refl]. }
  rewrite Ex in E. discriminate.
Qed.

Lemma map_err_ok {A} f (r : Result A string) a : map_err f r = Ok a -> r = Ok a.
Proof. destruct r; cbn; congruence. Qed.

End RunFacts.

(** * The claims *)
Module Claims.
Import Meshy Classify PollFacts.

(** C1 (amended). A failure status ends every poll loop at the request that
    observed it, with no further request and no progress event: the
    image-to-3D loop answers FAILED with "Meshy Task Failed: " followed by
    the remote message, or "Unknown error" when there is none, and treats
    CANCELED as an unknown status; the rigging and animation loops answer
    FAILED and CANCELED with an error naming the task ID that does not carry
    the remote message. In scenario C the pipeline therefore fails with
    "Rigging task failed or canceled. ID: rig-1" and stores nothing. *)
Theorem failure_status_ends_poll :
  (forall key obs fuel a s code disp text st,
     a <= max_attempts -> obs (fetches s) = Resp code disp text (inl st) ->
     is_success code = true -> status st = "FAILED" ->
     poll_for_glb_url_loop (Some key) obs (S fuel) a s =
     (Some (Err ("Meshy Task Failed: " ++ match task_error st with
                                          | Some e => message e
                                          | None => "Unknown error"
                                          end)),
      mk_poll_state (S (fetches s)) (events s))) /\
  (forall key obs fuel a s code disp text st,
     a <= max_attempts -> obs (fetches s) = Resp code disp text (inl st) ->
     is_success code = true -> status st = "CANCELED" ->
     poll_for_glb_url_loop (Some key) obs (S fuel) a s =
     (Some (Err "Unknown status: CANCELED"), mk_poll_state (S (fetches s)) (events s))) /\
  (forall task_id obs fuel a s code disp text st,
     obs (fetches s) = Resp code disp text (inl st) -> is_success code = true ->
     status st = "FAILED" \/ status st = "CANCELED" ->
     poll_for_rigging_success_loop task_id obs (S fuel) a s =
     (Some (Err ("Rigging task failed or canceled. ID: " ++ task_id)),
      mk_poll_state (S (fetches s)) (events s))) /\
  (forall task_id anim_name obs fuel a s code disp text st,
     obs (fetches s) = Resp code disp text (inl st) -> is_success code = true ->
     Anim.status st = "FAILED" \/ Anim.status st = "CANCELED" ->
     poll_for_animation_glb_loop task_id anim_name obs (S fuel) a s =
     (Some (Err ("Animation task failed or canceled. ID: " ++ task_id)),
      mk_poll_state (S (fetches s)) (events s))) /\
  Pipeline.run_generation_pipeline scenario_c_env "data:image/png;base64,QUJD" [] =
  (Err "Rigging task failed or canceled. ID: rig-1", []).
Proof.
  split; [| split; [| split; [| split]]].
  - intros key obs fuel a s code disp text st Hle Hobs Hsucc Hst.
    glb_at Hle Hobs Hsucc. rewrite Hst. reflexivity.
  - intros key obs fuel a s code disp text st Hle Hobs Hsucc Hst.
    glb_at Hle Hobs Hsucc. rewrite Hst. reflexivity.
  - intros task_id obs fuel a s code disp text st Hobs Hsucc [Hst | Hst];
      rig_at Hobs Hsucc; rewrite Hst; reflexivity.
  - intros task_id anim_name obs fuel a s code disp text st Hobs Hsucc [Hst | Hst];
      rig_at Hobs Hsucc; rewrite Hst; reflexivity.
  - vm_compute. reflexivity.
Qed.

(** C1 refuted: in scenario C the error the pipeline returns does not
    contain the remote message "input mesh invalid". *)
Lemma scenario_c_message_dropped :
  exists e,
    fst (Pipeline.run_generation_pipeline scenario_c_env "data:image/png;base64,QUJD" []) = Err e /\
    contains e "input mesh invalid" = false.
Proof.
  exists "Rigging task failed or canceled. ID: rig-1". split; vm_compute; reflexivity.
Qed.

(** C2 (code bug). When every status request fails in transport, the
    transient error each loop retries, every loop ends with its Timeout
    error only after [S max_attempts] = 121 requests, one more than the
    attempt budget of 120 ([attempts > max_attempts] is tested, not
    [>=]). *)
Theorem transport_failures_take_121_fetches :
  forall key task_id anim_name obs_m obs_r obs_a,
    (forall n, exists e, obs_m n = SendErr e) ->
    (forall n, exists e, obs_r n = SendErr e) ->
    (forall n, exists e, obs_a n = SendErr e) ->
    fst (run_poll (poll_for_glb_url (Some key) obs_m)) = Err "Timeout waiting for Meshy AI task" /\
    fetches (snd (run_poll (poll_for_glb_url (Some key) obs_m))) = S max_attempts /\
    fst (run_poll (poll_for_rigging_success (Some key) task_id obs_r))
      = Err "Timeout waiting for Rigging task" /\
    fetches (snd (run_poll (poll_for_rigging_success (Some key) task_id obs_r))) = S max_attempts /\
    fst (run_poll (poll_for_animation_glb (Some key) task_id anim_name obs_a))
      = Err ("Timeout waiting for Animation task (" ++ anim_name ++ ")") /\
    fetches (snd (run_poll (poll_for_animation_glb (Some key) task_id anim_name obs_a)))
      = S max_attempts.
Proof.
  intros key task_id anim_name obs_m obs_r obs_a Hm Hr Ha.
  pose proof (send_err_glb_continues _ Hm) as Hm'; clear Hm; rename Hm' into Hm.
  pose proof (send_err_rig_continues _ Hr) as Hr'; clear Hr; rename Hr' into Hr.
  pose proof (send_err_anim_continues _ Ha) as Ha'; clear Ha; rename Ha' into Ha.
  destruct (glb_loop_skip key obs_m (S max_attempts) loop_fuel 0 init_state) as [evm Em];
    [cbn; lia | cbv; lia | intros n _; apply Hm |].
  destruct (rig_loop_skip task_id obs_r max_attempts loop_fuel 0 init_state) as [evr Er];
    [cbn; lia | cbv; lia | intros n _; apply Hr |].
  destruct (anim_loop_skip task_id anim_name obs_a max_attempts loop_fuel 0 init_state) as [eva Ea];
    [cbn; lia | cbv; lia | intros n _; apply Ha |].
  replace (loop_fuel - max_attempts) with (S 1) in Er, Ea by reflexivity.
  destruct (rig_loop_last task_id obs_r 1 (0 + max_attempts)
              (mk_poll_state (fetches init_state + max_attempts) (events init_state ++ evr)))
    as [evr' Er']; [cbn; lia | apply Hr |].
  destruct (anim_loop_last task_id anim_name obs_a 1 (0 + max_attempts)
              (mk_poll_state (fetches init_state + max_attempts) (events init_state ++ eva)))
    as [eva' Ea']; [cbn; lia | apply Ha |].
  unfold run_poll, poll_for_glb_url, poll_for_rigging_success, poll_for_animation_glb, bind.
  rewrite Em, Er, Er', Ea, Ea'. cbn. repeat split.
Qed.

(** Witness of C2: a status endpoint that is never reachable. *)
Lemma transport_failures_take_121_fetches_witness :
  fst (run_poll (poll_for_rigging_success (Some "msy_key") "rig-1" (fun _ => SendErr "connection refused")))
    = Err "Timeout waiting for Rigging task" /\
  fetches (snd (run_poll (poll_for_glb_url (Some "msy_key") (fun _ => SendErr "connection refused"))))
    = 121.
Proof.
  pose proof (transport_failures_take_121_fetches "msy_key" "rig-1" "Idle"
                (fun _ => SendErr "connection refused") (fun _ => SendErr "connection refused")
                (fun _ => SendErr "connection refused")
                (fun _ => ex_intro _ "connection refused" eq_refl)
                (fun _ => ex_intro _ "connection refused" eq_refl)
                (fun _ => ex_intro _ "connection refused" eq_refl)) as (_ & Hm & Hr & _).
  split; [exact Hr | exact Hm].
Defined.

(** C3 (amended). The image-to-3D loop retries every failed status
    request (transport error, non-success HTTP status, undecodable body):
    the request is counted and the loop goes on with the next attempt. The
    rigging and animation loops retry only transport errors; a non-success
    HTTP status or an undecodable body ends them at once with an error. *)
Theorem fetch_errors_retried_or_fatal :
  (forall key obs fuel a s,
     a <= max_attempts ->
     (exists e, obs (fetches s) = SendErr e) \/
     (exists code disp text json, obs (fetches s) = Resp code disp text json /\ is_success code = false) \/
     (exists code disp text e, obs (fetches s) = Resp code disp text (inr e)) ->
     exists evs,
       poll_for_glb_url_loop (Some key) obs (S fuel) a s =
       poll_for_glb_url_loop (Some key) obs fuel (S a)
                             (mk_poll_state (S (fetches s)) (events s ++ evs))) /\
  (forall task_id obs fuel a s e,
     S a <= max_attempts -> obs (fetches s) = SendErr e ->
     exists evs,
       poll_for_rigging_success_loop task_id obs (S fuel) a s =
       poll_for_rigging_success_loop task_id obs fuel (S a)
                                     (mk_poll_state (S (fetches s)) (events s ++ evs))) /\
  (forall task_id obs fuel a s code disp text json,
     obs (fetches s) = Resp code disp text json -> is_success code = false ->
     poll_for_rigging_success_loop task_id obs (S fuel) a s =
     (Some (Err ("Meshy poll error: " ++ disp ++ " - " ++ text)),
      mk_poll_state (S (fetches s)) (events s))) /\
  (forall task_id obs fuel a s code disp text e,
     obs (fetches s) = Resp code disp text (inr e) -> is_success code = true ->
     poll_for_rigging_success_loop task_id obs (S fuel) a s =
     (Some (Err ("Failed to parse Rigging task status: " ++ e)),
      mk_poll_state (S (fetches s)) (events s))) /\
  (forall task_id anim_name obs fuel a s e,
     S a <= max_attempts -> obs (fetches s) = SendErr e ->
     exists evs,
       poll_for_animation_glb_loop task_id anim_name obs (S fuel) a s =
       poll_for_animation_glb_loop task_id anim_name obs fuel (S a)
                                   (mk_poll_state (S (fetches s)) (events s ++ evs))) /\
  (forall task_id anim_name obs fuel a s code disp text json,
     obs (fetches s) = Resp code disp text json -> is_success code = false ->
     poll_for_animation_glb_loop task_id anim_name obs (S fuel) a s =
     (Some (Err ("Meshy poll error: " ++ disp ++ " - " ++ text)),
      mk_poll_state (S (fetches s)) (events s))) /\
  (forall task_id anim_name obs fuel a s code disp text e,
     obs (fetches s) = Resp code disp text (inr e) -> is_success code = true ->
     poll_for_animation_glb_loop task_id anim_name obs (S fuel) a s =
     (Some (Err ("Failed to parse Animation task status: " ++ e)),
      mk_poll_state (S (fetches s)) (events s))).
Proof.
  split; [| split; [| split; [| split; [| split; [| split]]]]].
  - intros key obs fuel a s Hle H. apply glb_loop_continue; [exact Hle |].
    destruct H as [[e ->] | [[code [disp [text [json [-> Hs]]]]] | [code [disp [text [e ->]]]]]];
      cbn; [reflexivity | rewrite Hs; reflexivity | destruct (is_success code); reflexivity].
  - intros task_id obs fuel a s e Hle Hobs. apply rig_loop_continue; [exact Hle | rewrite Hobs; reflexivity].
  - intros task_id obs fuel a s code disp text json Hobs Hs. rig_at Hobs Hs. reflexivity.
  - intros task_id obs fuel a s code disp text e Hobs Hs. rig_at Hobs Hs. reflexivity.
  - intros task_id anim_name obs fuel a s e Hle Hobs.
    apply anim_loop_continue; [exact Hle | rewrite Hobs; reflexivity].
  - intros task_id anim_name obs fuel a s code disp text json Hobs Hs. rig_at Hobs Hs. reflexivity.
  - intros task_id anim_name obs fuel a s code disp text e Hobs Hs. rig_at Hobs Hs. reflexivity.
Qed.

(** C3 refuted: a 503 answer from the rigging status endpoint is not
    retried; the loop returns it after a single request. *)
Lemma rig_503_not_retried :
  run_poll (poll_for_rigging_success (Some "msy_key") "rig-1" busy_rig_obs) =
  (Err "Meshy poll error: 503 Service Unavailable - busy", mk_poll_state 1 []).
Proof. vm_compute. reflexivity. Qed.

(** C4 (amended). On PENDING(0), IN_PROGRESS(40), IN_PROGRESS(90),
    SUCCEEDED with glb "https://x/y.glb", the image-to-3D loop returns
    "https://x/y.glb" after 4 status requests, with 3 progress events
    (0%, 40%, 90%), each followed by a 5 second sleep. *)
Theorem scenario_a_trace :
  run_poll (poll_for_glb_url (Some "msy_key") scenario_a_obs) =
  (Ok "https://x/y.glb",
   mk_poll_state 4
     [ Emit "pipeline-progress" "Image to 3D Base Model: 0%"; Sleep 5;
       Emit "pipeline-progress" "Image to 3D Base Model: 40%"; Sleep 5;
       Emit "pipeline-progress" "Image to 3D Base Model: 90%"; Sleep 5 ]).
Proof. vm_compute. reflexivity. Qed.

(** C4 refuted: scenario A does not take 3 status requests. *)
Lemma scenario_a_not_three_fetches :
  fetches (snd (run_poll (poll_for_glb_url (Some "msy_key") scenario_a_obs))) <> 3.
Proof. vm_compute. discriminate. Qed.

(** C5. The stats stage never fails on a response that is JSON: when the
    strict decoding fails, the fallback builds a record anyway. When the
    six fields sit under one wrapper key, with keys spelled in any case,
    the fallback recovers each field that is present and puts the
    documented default in place of each missing one. *)
Theorem stats_fallback_recovers_wrapped_fields :
  (forall v, exists st, Gemini.robot_status_of_text (Some v) = Ok st) /\
  (forall w kn kl kh ka kd kv n l hp atk def vd entries,
     Gemini.to_lowercase kn = "name" -> Gemini.to_lowercase kl = "lore" ->
     Gemini.to_lowercase kh = "hp" -> Gemini.to_lowercase ka = "atk" ->
     Gemini.to_lowercase kd = "def" -> Gemini.to_lowercase kv = "visual_description" ->
     Gemini.in_i32 hp = true -> Gemini.in_i32 atk = true -> Gemini.in_i32 def = true ->
     incl entries (stats_entries kn kl kh ka kd kv n l hp atk def vd) ->
     Gemini.robot_status_of_text (Some (Gemini.JObject [(w, Gemini.JObject entries)])) =
     Ok (Gemini.mkRobotStatus
           (if has_key kn entries then n else "Unknown Robot")
           (if has_key kl entries then l else "No lore available.")
           (if has_key kh entries then hp else 1000%Z)
           (if has_key ka entries then atk else 50%Z)
           (if has_key kd entries then def else 20%Z)
           (if has_key kv entries then vd else "A standard mechanical combat robot."))).
Proof.
  split.
  - intros v. unfold Gemini.robot_status_of_text. cbn [Gemini.obind].
    destruct (Gemini.serde_robot_status v); eexists; reflexivity.
  - intros w kn kl kh ka kd kv n l hp atk def vd entries Hn Hl Hh Ha Hd Hv Ihp Iatk Idef Hincl.
    unfold Gemini.robot_status_of_text. cbn [Gemini.obind].
    rewrite StatsFacts.serde_wrapped_fails, !StatsFacts.find_string_wrap, !StatsFacts.find_i32_wrap.
    rewrite (StatsFacts.find_string_flat ["name"] (fun k => String.eqb k kn) n entries)
      by StatsFacts.stats_side Hincl.
    rewrite (StatsFacts.find_string_flat ["lore"] (fun k => String.eqb k kl) l entries)
      by StatsFacts.stats_side Hincl.
    rewrite (StatsFacts.find_string_flat ["visual_description"; "visual_description_en"]
               (fun k => String.eqb k kv) vd entries)
      by StatsFacts.stats_side Hincl.
    rewrite (StatsFacts.find_i32_flat ["hp"] (fun k => String.eqb k kh) hp entries);
      [| StatsFacts.stats_side Hincl .. | apply StatsFacts.in_i32_i64; exact Ihp].
    rewrite (StatsFacts.find_i32_flat ["atk"] (fun k => String.eqb k ka) atk entries);
      [| StatsFacts.stats_side Hincl .. | apply StatsFacts.in_i32_i64; exact Iatk].
    rewrite (StatsFacts.find_i32_flat ["def"] (fun k => String.eqb k kd) def entries);
      [| StatsFacts.stats_side Hincl .. | apply StatsFacts.in_i32_i64; exact Idef].
    unfold has_key.
    repeat match goal with
           | |- context [existsb ?f entries] => destruct (existsb f entries)
           end;
      cbn [Gemini.unwrap_or];
      rewrite ?(StatsFacts.wrap_i32_id hp Ihp), ?(StatsFacts.wrap_i32_id atk Iatk),
              ?(StatsFacts.wrap_i32_id def Idef);
      reflexivity.
Qed.

(** Witness of C5: the fields under a "robot" wrapper, "Name" and "HP" in
    other cases, "lore" missing. *)
Lemma stats_fallback_recovers_wrapped_fields_witness :
  Gemini.robot_status_of_text
    (Some (Gemini.JObject
             [("robot", Gemini.JObject
                          [("Name", Gemini.JString "Onigiri Titan");
                           ("HP", Gemini.JNumber (Gemini.NInt 1200));
                           ("atk", Gemini.JNumber (Gemini.NInt 60));
                           ("def", Gemini.JNumber (Gemini.NInt 25));
                           ("visual_description", Gemini.JString "rice ball robot")])])) =
  Ok (Gemini.mkRobotStatus "Onigiri Titan" "No lore available." 1200%Z 60%Z 25%Z "rice ball robot").
Proof.
  destruct stats_fallback_recovers_wrapped_fields as [_ H].
  refine (H "robot" "Name" "lore" "HP" "atk" "def" "visual_description"
            "Onigiri Titan" "unused" 1200%Z 60%Z 25%Z "rice ball robot" _
            eq_refl eq_refl eq_refl eq_refl eq_refl eq_refl eq_refl eq_refl eq_refl _).
  intros x Hx. cbn in Hx |- *. intuition (subst; auto).
Defined.

(** C6. When the first [i] answers keep a loop going ([i] within the
    budget) and answer [i] is a success status SUCCEEDED whose payload
    carries the result (the GLB URL for the image-to-3D loop, the
    animation_glb_url for an animation loop), the loop returns that result,
    after exactly [S i] status requests: none after the SUCCEEDED answer. *)
Theorem succeeded_returns_result :
  (forall key obs i code disp text st urls g,
     i <= max_attempts ->
     (forall n, n < i -> glb_continues (obs n) = true) ->
     obs i = Resp code disp text (inl st) -> is_success code = true ->
     status st = "SUCCEEDED" -> model_urls st = Some urls -> glb urls = Some g ->
     exists evs,
       run_poll (poll_for_glb_url (Some key) obs) = (Ok g, mk_poll_state (S i) evs)) /\
  (forall key task_id anim_name obs i code disp text st r g,
     i <= max_attempts ->
     (forall n, n < i -> anim_continues (obs n) = true) ->
     obs i = Resp code disp text (inl st) -> is_success code = true ->
     Anim.status st = "SUCCEEDED" -> Anim.result st = Some r ->
     Anim.animation_glb_url r = Some g ->
     exists evs,
       run_poll (poll_for_animation_glb (Some key) task_id anim_name obs) =
       (Ok g, mk_poll_state (S i) evs)).
Proof.
  split.
  - intros key obs i code disp text st urls g Hi Hc Hobs Hs Hst Hu Hg.
    destruct (glb_loop_skip key obs i loop_fuel 0 init_state) as [evs E];
      [cbn; lia | unfold loop_fuel; lia | cbn; intros n Hn; apply Hc; lia |].
    replace (loop_fuel - i) with (S (loop_fuel - S i)) in E by (unfold loop_fuel; lia).
    rewrite (glb_loop_succeeded key obs _ (0 + i) _ code disp text st urls g) in E;
      [| lia | exact Hobs | exact Hs | exact Hst | exact Hu | exact Hg].
    exists evs. unfold run_poll, poll_for_glb_url. cbv [bind]. rewrite E. reflexivity.
  - intros key task_id anim_name obs i code disp text st r g Hi Hc Hobs Hs Hst Hr Hg.
    destruct (anim_loop_skip task_id anim_name obs i loop_fuel 0 init_state) as [evs E];
      [cbn; lia | unfold loop_fuel; lia | cbn; intros n Hn; apply Hc; lia |].
    replace (loop_fuel - i) with (S (loop_fuel - S i)) in E by (unfold loop_fuel; lia).
    rewrite (anim_loop_succeeded task_id anim_name obs _ (0 + i) _ code disp text st r g) in E;
      [| exact Hobs | exact Hs | exact Hst | exact Hr | exact Hg].
    exists evs. unfold run_poll, poll_for_animation_glb. cbv [bind]. rewrite E. reflexivity.
Qed.

(** Witness of C6: scenario A, SUCCEEDED at the fourth answer. *)
Lemma succeeded_returns_result_witness :
  exists evs,
    run_poll (poll_for_glb_url (Some "msy_key") scenario_a_obs) =
    (Ok "https://x/y.glb", mk_poll_state 4 evs).
Proof.
  destruct succeeded_returns_result as [H _].
  exact (H "msy_key" scenario_a_obs 3 200%N "200 OK" ""
           (mesh_status_of "SUCCEEDED" 100 (Some "https://x/y.glb"))
           (mkModelUrls (Some "https://x/y.glb") None None) "https://x/y.glb"
           ltac:(cbv; lia)
           ltac:(intros n Hn; destruct n as [| [| [| n]]]; [reflexivity | reflexivity | reflexivity | lia])
           eq_refl eq_refl eq_refl eq_refl eq_refl).
Defined.

(** C7. A success status SUCCEEDED whose payload lacks the result ends the
    loop at that request with an error, without another request: the
    image-to-3D loop when [model_urls] or its [glb] is absent, the animation
    loop when [result] or its [animation_glb_url] is absent. *)
Theorem succeeded_without_result_fails :
  (forall key obs fuel a s code disp text st,
     a <= max_attempts -> obs (fetches s) = Resp code disp text (inl st) ->
     is_success code = true -> status st = "SUCCEEDED" ->
     match model_urls st with Some urls => glb urls = None | None => True end ->
     poll_for_glb_url_loop (Some key) obs (S fuel) a s =
     (Some (Err "Task succeeded but no GLB URL found in response"),
      mk_poll_state (S (fetches s)) (events s))) /\
  (forall task_id anim_name obs fuel a s code disp text st,
     obs (fetches s) = Resp code disp text (inl st) ->
     is_success code = true -> Anim.status st = "SUCCEEDED" -> Anim.result st = None ->
     poll_for_animation_glb_loop task_id anim_name obs (S fuel) a s =
     (Some (Err "Task succeeded but result object is missing"),
      mk_poll_state (S (fetches s)) (events s))) /\
  (forall task_id anim_name obs fuel a s code disp text st r,
     obs (fetches s) = Resp code disp text (inl st) ->
     is_success code = true -> Anim.status st = "SUCCEEDED" -> Anim.result st = Some r ->
     Anim.animation_glb_url r = None ->
     poll_for_animation_glb_loop task_id anim_name obs (S fuel) a s =
     (Some (Err "Task succeeded but animation_glb_url is missing"),
      mk_poll_state (S (fetches s)) (events s))).
Proof.
  split; [| split].
  - intros key obs fuel a s code disp text st Hle Hobs Hsucc Hst Hu.
    glb_at Hle Hobs Hsucc. rewrite Hst.
    destruct (model_urls st) as [urls |]; [rewrite Hu |]; reflexivity.
  - intros task_id anim_name obs fuel a s code disp text st Hobs Hsucc Hst Hr.
    rig_at Hobs Hsucc. rewrite Hst, Hr. reflexivity.
  - intros task_id anim_name obs fuel a s code disp text st r Hobs Hsucc Hst Hr Hg.
    rig_at Hobs Hsucc. rewrite Hst, Hr, Hg. reflexivity.
Qed.

(** Witness of C7: a SUCCEEDED answer without a GLB URL at the first
    request. *)
Lemma succeeded_without_result_fails_witness :
  poll_for_glb_url_loop (Some "msy_key")
                        (fun _ => ok_resp (mesh_status_of "SUCCEEDED" 100 None))
                        loop_fuel 0 init_state =
  (Some (Err "Task succeeded but no GLB URL found in response"), mk_poll_state 1 []).
Proof.
  destruct succeeded_without_result_fails as [H _].
  exact (H "msy_key" (fun _ => ok_resp (mesh_status_of "SUCCEEDED" 100 None))
           (S max_attempts) 0 init_state 200%N "200 OK" ""
           (mesh_status_of "SUCCEEDED" 100 None)
           ltac:(cbv; lia) eq_refl eq_refl eq_refl eq_refl).
Defined.

(** C8. The two animation loops run after rigging, on the tasks created
    from the run's own rigging task with action 0 (Idle) and action 92
    (Attack). A run that returns a record had both of its loops succeed,
    and the record's [model_path] and [attack_model_path] are the downloads
    of their two results as [<task id>_idle.glb] and
    [<task id>_attack.glb]. Once a run reaches the animation stage, a
    failure of either of its two loops fails the whole run with that loop's
    error and leaves the store as it was, even when the other loop
    succeeded: there is no partial outcome. *)
Theorem both_animations_required :
  (forall env img st r st',
     Pipeline.run_generation_pipeline env img st = (Ok r, st') ->
     exists stats gen task_id rig idle atk iu au,
       Pipeline.generate_robot_status env (Pipeline.clean_base64_of img) = Ok stats /\
       Pipeline.generate_robot_image env (Gemini.visual_description stats) = Ok gen /\
       Pipeline.create_image_to_3d_task env gen = Ok task_id /\
       Pipeline.create_rigging_task env task_id = Ok rig /\
       Pipeline.create_animation_task env rig 0 = Ok idle /\
       Pipeline.create_animation_task env rig 92 = Ok atk /\
       Pipeline.poll_result (poll_for_animation_glb (Pipeline.meshy_api_key env) idle "Idle"
                               (Pipeline.anim_status env idle)) = Ok iu /\
       Pipeline.poll_result (poll_for_animation_glb (Pipeline.meshy_api_key env) atk "Attack"
                               (Pipeline.anim_status env atk)) = Ok au /\
       Pipeline.download_glb env iu (task_id ++ "_idle.glb") = Ok (Db.model_path r) /\
       Pipeline.download_glb env au (task_id ++ "_attack.glb") = Ok (Db.attack_model_path r)) /\
  (forall env img st idle atk,
     Stages.animation_stage_reached env img idle atk ->
     (forall e,
        Pipeline.poll_result (poll_for_animation_glb (Pipeline.meshy_api_key env) idle "Idle"
                                (Pipeline.anim_status env idle)) = Err e ->
        Pipeline.run_generation_pipeline env img st = (Err e, st)) /\
     (forall iu e,
        Pipeline.poll_result (poll_for_animation_glb (Pipeline.meshy_api_key env) idle "Idle"
                                (Pipeline.anim_status env idle)) = Ok iu ->
        Pipeline.poll_result (poll_for_animation_glb (Pipeline.meshy_api_key env) atk "Attack"
                                (Pipeline.anim_status env atk)) = Err e ->
        Pipeline.run_generation_pipeline env img st = (Err e, st))).
Proof.
  split.
  - intros env img st r st' H. revert H. PipelineFacts.unfold_run. PipelineFacts.run_cases;
      intros H; try discriminate.
    injection H as <- <-. cbn [Db.model_path Db.attack_model_path].
    match goal with
    | H0 : Pipeline.generate_robot_status _ _ = Ok ?s,
      Hg : Pipeline.generate_robot_image _ _ = Ok ?g,
      Ht : Pipeline.create_image_to_3d_task _ _ = Ok ?t,
      Hr : Pipeline.create_rigging_task _ _ = Ok ?rig,
      H1 : Pipeline.create_animation_task _ _ 0 = Ok ?idle,
      H2 : Pipeline.create_animation_task _ _ 92 = Ok ?atk,
      H3 : Pipeline.poll_result (poll_for_animation_glb _ _ "Idle" _) = Ok ?iu,
      H4 : Pipeline.poll_result (poll_for_animation_glb _ _ "Attack" _) = Ok ?au |- _ =>
        exists s, g, t, rig, idle, atk, iu, au
    end.
    repeat split;
      match goal with
      | |- ?G => first [reflexivity | match goal with H : G |- _ => exact H end]
      end.
  - intros env img st idle atk Hreach.
    destruct Hreach as (stats & gen & tid & glb & ob & gb & rig &
                        H1 & H2 & H3 & H4 & H5 & H6 & H7 & H8 & H9 & H10 & H11 & H12).
    PipelineFacts.unfold_run. cbv zeta.
    rewrite H1; cbv beta iota. rewrite H2; cbv beta iota. rewrite H3; cbv beta iota.
    rewrite H4; cbv beta iota. rewrite H5; cbv beta iota delta [Pipeline.map_err].
    rewrite H6; cbv beta iota. rewrite H7; cbv beta iota delta [Pipeline.map_err].
    rewrite H8; cbv beta iota. rewrite H9; cbv beta iota. rewrite H10; cbv beta iota.
    rewrite H11; cbv beta iota. rewrite H12; cbv beta iota.
    split.
    + intros e He. rewrite He. reflexivity.
    + intros iu e Hi Ha. rewrite Hi, Ha. reflexivity.
Qed.

(** Witness of C8, on end-to-end scenario B: when the Idle job succeeds
    at its 2nd request and the Attack job at its 5th, the record holds both
    downloads; when the Attack job reports FAILED instead, the run fails
    with that job's error although the Idle job succeeded. *)
Lemma both_animations_required_witness :
  (exists stats gen task_id rig idle atk iu au,
     Pipeline.generate_robot_status Samples.scenario_b_env (Pipeline.clean_base64_of "QUJD") = Ok stats /\
     Pipeline.generate_robot_image Samples.scenario_b_env (Gemini.visual_description stats) = Ok gen /\
     Pipeline.create_image_to_3d_task Samples.scenario_b_env gen = Ok task_id /\
     Pipeline.create_rigging_task Samples.scenario_b_env task_id = Ok rig /\
     Pipeline.create_animation_task Samples.scenario_b_env rig 0 = Ok idle /\
     Pipeline.create_animation_task Samples.scenario_b_env rig 92 = Ok atk /\
     Pipeline.poll_result (poll_for_animation_glb (Pipeline.meshy_api_key Samples.scenario_b_env)
                             idle "Idle" (Pipeline.anim_status Samples.scenario_b_env idle)) = Ok iu /\
     Pipeline.poll_result (poll_for_animation_glb (Pipeline.meshy_api_key Samples.scenario_b_env)
                             atk "Attack" (Pipeline.anim_status Samples.scenario_b_env atk)) = Ok au /\
     Pipeline.download_glb Samples.scenario_b_env iu (task_id ++ "_idle.glb") =
       Ok (Db.model_path Samples.scenario_b_record) /\
     Pipeline.download_glb Samples.scenario_b_env au (task_id ++ "_attack.glb") =
       Ok (Db.attack_model_path Samples.scenario_b_record)) /\
  Pipeline.run_generation_pipeline Samples.scenario_b_attack_fail_env "QUJD" [] =
    (Err "Animation task failed or canceled. ID: anim-attack", []).
Proof.
  destruct both_animations_required as [Hok Hfail]. split.
  - apply (Hok Samples.scenario_b_env "QUJD" [] Samples.scenario_b_record
             [Samples.scenario_b_record]).
    vm_compute. reflexivity.
  - apply (proj2 (Hfail Samples.scenario_b_attack_fail_env "QUJD" [] "anim-idle" "anim-attack"
                   ltac:(do 7 eexists; repeat split; vm_compute; reflexivity))
             "https://x/idle.glb"); vm_compute; reflexivity.
Defined.

(** C9. A run that fails leaves the result store as it was; a run that
    succeeds adds exactly its record, once, at the end of the store. *)
Theorem store_changes_only_on_success :
  forall env img st,
    match Pipeline.run_generation_pipeline env img st with
    | (Err _, st') => st' = st
    | (Ok r, st') => st' = (st ++ [r])%list
    end.
Proof.
  intros env img st. PipelineFacts.unfold_run. PipelineFacts.run_cases; try reflexivity.
  match goal with
  | H : Db.insert_robot _ _ = Ok _ |- _ => exact (PipelineFacts.db_insert_appends _ _ _ H)
  end.
Qed.

(** C10. On a success answer with a status outside SUCCEEDED, FAILED,
    PENDING and IN_PROGRESS (CANCELED among them), the image-to-3D loop
    stops at once with "Unknown status: <status>". The rigging and
    animation loops treat any status other than SUCCEEDED, FAILED and
    CANCELED as still running: they go round again while the budget allows
    and time out when it is spent. *)
Theorem unknown_status_handling :
  (forall key obs fuel a s code disp text st,
     a <= max_attempts -> obs (fetches s) = Resp code disp text (inl st) ->
     is_success code = true ->
     existsb (String.eqb (status st)) ["SUCCEEDED"; "FAILED"; "PENDING"; "IN_PROGRESS"] = false ->
     poll_for_glb_url_loop (Some key) obs (S fuel) a s =
     (Some (Err ("Unknown status: " ++ status st)), mk_poll_state (S (fetches s)) (events s))) /\
  (forall task_id obs fuel a s code disp text st,
     obs (fetches s) = Resp code disp text (inl st) -> is_success code = true ->
     rig_terminal (status st) = false ->
     (S a <= max_attempts ->
      exists evs,
        poll_for_rigging_success_loop task_id obs (S fuel) a s =
        poll_for_rigging_success_loop task_id obs fuel (S a)
                                      (mk_poll_state (S (fetches s)) (events s ++ evs))) /\
     (max_attempts < S a ->
      exists evs,
        poll_for_rigging_success_loop task_id obs (S fuel) a s =
        (Some (Err "Timeout waiting for Rigging task"),
         mk_poll_state (S (fetches s)) (events s ++ evs)))) /\
  (forall task_id anim_name obs fuel a s code disp text st,
     obs (fetches s) = Resp code disp text (inl st) -> is_success code = true ->
     rig_terminal (Anim.status st) = false ->
     (S a <= max_attempts ->
      exists evs,
        poll_for_animation_glb_loop task_id anim_name obs (S fuel) a s =
        poll_for_animation_glb_loop task_id anim_name obs fuel (S a)
                                    (mk_poll_state (S (fetches s)) (events s ++ evs))) /\
     (max_attempts < S a ->
      exists evs,
        poll_for_animation_glb_loop task_id anim_name obs (S fuel) a s =
        (Some (Err ("Timeout waiting for Animation task (" ++ anim_name ++ ")")),
         mk_poll_state (S (fetches s)) (events s ++ evs)))).
Proof.
  split; [| split].
  - intros key obs fuel a s code disp text st Hle Hobs Hsucc Hu.
    cbn [existsb] in Hu. rewrite !orb_false_iff in Hu.
    destruct Hu as [E1 [E2 [E3 [E4 _]]]].
    glb_at Hle Hobs Hsucc. rewrite E1, E2, E3, E4. reflexivity.
  - intros task_id obs fuel a s code disp text st Hobs Hsucc Ht.
    assert (Hc : rig_continues (obs (fetches s)) = true)
      by (rewrite Hobs; cbn [rig_continues]; rewrite Hsucc, Ht; reflexivity).
    split; intros Ha; [apply rig_loop_continue | apply rig_loop_last]; assumption.
  - intros task_id anim_name obs fuel a s code disp text st Hobs Hsucc Ht.
    assert (Hc : anim_continues (obs (fetches s)) = true)
      by (rewrite Hobs; cbn [anim_continues]; rewrite Hsucc, Ht; reflexivity).
    split; intros Ha; [apply anim_loop_continue | apply anim_loop_last]; assumption.
Qed.

(** Witness of C10: a CANCELED image-to-3D answer at the first request. *)
Lemma unknown_status_handling_witness :
  poll_for_glb_url_loop (Some "msy_key")
                        (fun _ => ok_resp (mesh_status_of "CANCELED" 10 None))
                        loop_fuel 0 init_state =
  (Some (Err "Unknown status: CANCELED"), mk_poll_state 1 []).
Proof.
  destruct unknown_status_handling as [H _].
  exact (H "msy_key" (fun _ => ok_resp (mesh_status_of "CANCELED" 10 None))
           (S max_attempts) 0 init_state 200%N "200 OK" ""
           (mesh_status_of "CANCELED" 10 None)
           ltac:(cbv; lia) eq_refl eq_refl eq_refl).
Defined.

End Claims.

(** * Further properties of the back end *)

Module ExtrasPoll.
Import Meshy.

(** X1. For every API key and every sequence of answers, each of the three poll loops, started with the fuel its entry point gives it, ends through one of its own returns (never by running out of fuel) after at most 121 status requests. *)
Theorem poll_loops_terminate_within_budget :
  (forall key obs, exists r s,
     poll_for_glb_url_loop key obs loop_fuel 0 init_state = (Some r, s) /\
     fetches s <= S max_attempts) /\
  (forall task_id obs, exists r s,
     poll_for_rigging_success_loop task_id obs loop_fuel 0 init_state = (Some r, s) /\
     fetches s <= S max_attempts) /\
  (forall task_id anim_name obs, exists r s,
     poll_for_animation_glb_loop task_id anim_name obs loop_fuel 0 init_state = (Some r, s) /\
     fetches s <= S max_attempts).
Proof.
  split; [| split].
  - intros key obs.
    destruct (BoundFacts.glb_loop_bounded key obs loop_fuel 0 init_state) as (r & s & E & _ & B);
      [cbv; lia | cbv; lia |].
    exists r, s. split; [exact E | cbn in B; lia].
  - intros task_id obs.
    destruct (BoundFacts.rig_loop_bounded task_id obs loop_fuel 0 init_state) as (r & s & E & _ & B);
      [cbv; lia | cbv; lia |].
    exists r, s. split; [exact E | cbn in B; lia].
  - intros task_id anim_name obs.
    destruct (BoundFacts.anim_loop_bounded task_id anim_name obs loop_fuel 0 init_state) as (r & s & E & _ & B);
      [cbv; lia | cbv; lia |].
    exists r, s. split; [exact E | cbn in B; lia].
Qed.

(** X2. Without MESHY_AI_API_KEY the image-to-3D poll sends no request: it logs the missing key and sleeps 5 seconds 121 times (attempts 0 to 120), then returns the Timeout error. The rigging and animation polls return 'MESHY_AI_API_KEY not set in .env' at once, with no request and no event. *)
Theorem missing_key_polls :
  (forall obs,
     run_poll (poll_for_glb_url None obs) =
     (Err "Timeout waiting for Meshy AI task",
      mk_poll_state 0
        (flat_map (fun a => [Log ("Transient error polling Image-to-3D task (attempt "
                                  ++ string_of_nat a ++ "/" ++ string_of_nat max_attempts
                                  ++ "): MESHY_AI_API_KEY not found"); Sleep 5])
                  (seq 0 (S max_attempts))))) /\
  (forall task_id obs,
     run_poll (poll_for_rigging_success None task_id obs) =
     (Err "MESHY_AI_API_KEY not set in .env", init_state)) /\
  (forall task_id anim_name obs,
     run_poll (poll_for_animation_glb None task_id anim_name obs) =
     (Err "MESHY_AI_API_KEY not set in .env", init_state)).
Proof.
  split; [| split; reflexivity].
  intros obs. vm_compute. reflexivity.
Qed.

End ExtrasPoll.

Module ExtrasDecode.
Import Gemini StatusFields FlatFacts.
Local Open Scope list_scope.

(** X3. The strict decoder of generate_robot_status accepts an object whose
    six fields appear in any order, each under any of its serde spellings
    (name/Name, lore/Lore, hp/HP, atk/ATK, def/DEF,
    visual_description/VisualDescription/visualDescription), together with any
    number of entries under other keys. When the three integers fit in an i32,
    the result is exactly the six given values. *)
Theorem strict_aliases kn kl kh ka kd kv n l hp atk def vd extra entries :
  In kn ["name"; "Name"] -> In kl ["lore"; "Lore"] -> In kh ["hp"; "HP"] ->
  In ka ["atk"; "ATK"] -> In kd ["def"; "DEF"] ->
  In kv ["visual_description"; "VisualDescription"; "visualDescription"] ->
  (forall k v, In (k, v) extra -> field_of_key k = None) ->
  Permutation entries (Classify.stats_entries kn kl kh ka kd kv n l hp atk def vd ++ extra) ->
  in_i32 hp = true -> in_i32 atk = true -> in_i32 def = true ->
  robot_status_of_text (Some (JObject entries)) = Ok (mkRobotStatus n l hp atk def vd).
Proof.
  intros Hn Hl Hh Ha Hd Hv Hx Hp Ihp Iatk Idef.
  assert (Hk : Permutation (known_fields entries)
                 [(FName, JString n); (FLore, JString l); (FHp, JNumber (NInt hp));
                  (FAtk, JNumber (NInt atk)); (FDef, JNumber (NInt def)); (FVisual, JString vd)]).
  { eapply Permutation_trans; [unfold known_fields; apply Permutation_flat_map; exact Hp |].
    fold (known_fields (Classify.stats_entries kn kl kh ka kd kv n l hp atk def vd ++ extra)).
    rewrite known_fields_app, (known_fields_unknown extra Hx), app_nil_r.
    unfold known_fields, Classify.stats_entries. cbn [flat_map fst snd].
    rewrite (alias_field kn _ FName Hn), (alias_field kl _ FLore Hl), (alias_field kh _ FHp Hh),
            (alias_field ka _ FAtk Ha), (alias_field kd _ FDef Hd), (alias_field kv _ FVisual Hv)
      by alias_case.
    apply Permutation_refl. }
  assert (Hnd : NoDup (map fst (known_fields entries))).
  { eapply Permutation_NoDup; [symmetry; apply Permutation_map; exact Hk |].
    cbn. repeat constructor; cbn; intuition discriminate. }
  assert (Hin : forall f v, In (f, v) [(FName, JString n); (FLore, JString l); (FHp, JNumber (NInt hp));
                  (FAtk, JNumber (NInt atk)); (FDef, JNumber (NInt def)); (FVisual, JString vd)] ->
                            lookup_field f (known_fields entries) = Some v).
  { intros f v H. apply lookup_field_in; [exact Hnd |].
    eapply Permutation_in; [symmetry; exact Hk | exact H]. }
  unfold robot_status_of_text. cbn [obind serde_robot_status].
  rewrite (visit_map_known entries []) by exact Hnd. cbn [obind app].
  rewrite (Hin FName (JString n)), (Hin FLore (JString l)), (Hin FHp (JNumber (NInt hp))), (Hin FAtk (JNumber (NInt atk))), (Hin FDef (JNumber (NInt def))), (Hin FVisual (JString vd)) by (cbn; tauto).
  cbn - [in_i32]. rewrite Ihp, Iatk, Idef. reflexivity.
Qed.

Lemma strict_aliases_witness :
  robot_status_of_text
    (Some (JObject (Classify.stats_entries "Name" "lore" "HP" "atk" "DEF" "visualDescription"
                      "Onigiri Titan" "Built by Oishii Industry." 1200 60 25 "rice ball robot"
                    ++ [("comment", JString "extra")]))) =
  Ok (mkRobotStatus "Onigiri Titan" "Built by Oishii Industry." 1200 60 25 "rice ball robot").
Proof.
  apply (strict_aliases "Name" "lore" "HP" "atk" "DEF" "visualDescription"
           "Onigiri Titan" "Built by Oishii Industry." 1200 60 25 "rice ball robot"
           [("comment", JString "extra")]);
    [simpl; tauto .. | | apply Permutation_refl | reflexivity | reflexivity | reflexivity].
  intros k v [H | []]. injection H as <- _. reflexivity.
Defined.

(** X4. For an object whose entries are, in any order, exactly the six
    lowercase keys name, lore, hp, atk, def and visual_description, with
    values that are not objects, each field of the result is computed from its
    own value alone. A string field takes its value when that is a string, and
    its default otherwise. An integer field takes the value wrapped to 32 bits
    when that is an integer no larger than the i64 maximum (so unchanged when
    it fits in an i32), and its default otherwise. One badly typed field does
    not discard the others. *)
Theorem flat_object_fields n_v l_v hp_v atk_v def_v vd_v entries :
  Permutation entries [("name", n_v); ("lore", l_v); ("hp", hp_v); ("atk", atk_v);
                       ("def", def_v); ("visual_description", vd_v)] ->
  (forall k v, In (k, v) entries -> forall o, v <> JObject o) ->
  robot_status_of_text (Some (JObject entries)) =
  Ok (mkRobotStatus (unwrap_or (as_str n_v) "Unknown Robot")
                    (unwrap_or (as_str l_v) "No lore available.")
                    (unwrap_or (option_map wrap_i32 (as_i64 hp_v)) 1000%Z)
                    (unwrap_or (option_map wrap_i32 (as_i64 atk_v)) 50%Z)
                    (unwrap_or (option_map wrap_i32 (as_i64 def_v)) 20%Z)
                    (unwrap_or (as_str vd_v) "A standard mechanical combat robot.")).
Proof.
  intros Hp Hobj.
  assert (Hk : Permutation (known_fields entries)
                 [(FName, n_v); (FLore, l_v); (FHp, hp_v); (FAtk, atk_v); (FDef, def_v);
                  (FVisual, vd_v)]).
  { unfold known_fields. eapply Permutation_trans; [apply Permutation_flat_map; exact Hp |].
    apply Permutation_refl. }
  assert (Hnd : NoDup (map fst (known_fields entries))).
  { eapply Permutation_NoDup; [symmetry; apply Permutation_map; exact Hk |].
    cbn. repeat constructor; cbn; intuition discriminate. }
  assert (Hin : forall f v, In (f, v) [(FName, n_v); (FLore, l_v); (FHp, hp_v); (FAtk, atk_v);
                                        (FDef, def_v); (FVisual, vd_v)] ->
                            lookup_field f (known_fields entries) = Some v).
  { intros f v H. apply lookup_field_in; [exact Hnd |].
    eapply Permutation_in; [symmetry; exact Hk | exact H]. }
  unfold robot_status_of_text. cbn [obind serde_robot_status].
  rewrite (visit_map_known entries []) by exact Hnd. cbn [obind app].
  rewrite (Hin FName n_v), (Hin FLore l_v), (Hin FHp hp_v), (Hin FAtk atk_v), (Hin FDef def_v),
          (Hin FVisual vd_v) by (cbn; tauto).
  destruct (build_status (Some n_v) (Some l_v) (Some hp_v) (Some atk_v) (Some def_v) (Some vd_v))
    as [st |] eqn:Eb.
  - unfold build_status in Eb. cbn [obind] in Eb.
    destruct (de_string n_v) eqn:E1; [| discriminate].
    destruct (de_string l_v) eqn:E2; [| discriminate].
    destruct (de_i32 hp_v) eqn:E3; [| discriminate].
    destruct (de_i32 atk_v) eqn:E4; [| discriminate].
    destruct (de_i32 def_v) eqn:E5; [| discriminate].
    destruct (de_string vd_v) eqn:E6; [| discriminate].
    injection Eb as <-.
    rewrite (de_string_stat _ _ _ E1), (de_string_stat _ _ _ E2), (de_i32_stat _ _ _ E3),
            (de_i32_stat _ _ _ E4), (de_i32_stat _ _ _ E5), (de_string_stat _ _ _ E6).
    reflexivity.
  - assert (F1 : find_string (JObject entries) ["name"] = as_str n_v)
      by find_flat Hp Hobj find_string_unique "name".
    assert (F2 : find_string (JObject entries) ["lore"] = as_str l_v)
      by find_flat Hp Hobj find_string_unique "lore".
    assert (F3 : find_string (JObject entries) ["visual_description"; "visual_description_en"]
                 = as_str vd_v)
      by find_flat Hp Hobj find_string_unique "visual_description".
    assert (F4 : find_i32 (JObject entries) ["hp"] = option_map wrap_i32 (as_i64 hp_v))
      by find_flat Hp Hobj find_i32_unique "hp".
    assert (F5 : find_i32 (JObject entries) ["atk"] = option_map wrap_i32 (as_i64 atk_v))
      by find_flat Hp Hobj find_i32_unique "atk".
    assert (F6 : find_i32 (JObject entries) ["def"] = option_map wrap_i32 (as_i64 def_v))
      by find_flat Hp Hobj find_i32_unique "def".
    rewrite F1, F2, F3, F4, F5, F6. reflexivity.
Qed.

Lemma flat_object_fields_witness :
  robot_status_of_text
    (Some (JObject [("lore", JString "Built by Oishii Industry."); ("name", JString "Onigiri Titan");
                    ("hp", JString "1200"); ("atk", JNumber (NInt 60)); ("def", JNumber (NInt 25));
                    ("visual_description", JString "rice ball robot")])) =
  Ok (mkRobotStatus "Onigiri Titan" "Built by Oishii Industry." 1000 60 25 "rice ball robot").
Proof.
  apply (flat_object_fields (JString "Onigiri Titan") (JString "Built by Oishii Industry.")
           (JString "1200") (JNumber (NInt 60)) (JNumber (NInt 25)) (JString "rice ball robot")).
  - apply perm_swap.
  - intros k v H o; cbn in H; repeat destruct H as [H | H]; try (injection H as _ <-; discriminate); destruct H.
Defined.

(** X5. Neither decoding path looks inside arrays. An object with a single
    entry whose value is an array decodes to the six defaults ("Unknown
    Robot", "No lore available.", 1000, 50, 20, "A standard mechanical combat
    robot.") whatever the array holds, and so does a top-level array that the
    strict decoder rejects. *)
Theorem array_nesting_defaults :
  (forall w items,
     robot_status_of_text (Some (JObject [(w, JArray items)])) =
     Ok (mkRobotStatus "Unknown Robot" "No lore available." 1000 50 20
                       "A standard mechanical combat robot.")) /\
  (forall items, serde_robot_status (JArray items) = None ->
     robot_status_of_text (Some (JArray items)) =
     Ok (mkRobotStatus "Unknown Robot" "No lore available." 1000 50 20
                       "A standard mechanical combat robot.")).
Proof.
  split.
  - intros w items. unfold robot_status_of_text. cbn [obind].
    replace (serde_robot_status (JObject [(w, JArray items)])) with (@None RobotStatus)
      by (cbn; destruct (field_of_key w) as [[] |]; reflexivity).
    cbn [find_string find_i32 as_str as_i64 option_map].
    repeat match goal with |- context [key_matches ?ks w] => destruct (key_matches ks w) end;
      reflexivity.
  - intros items H. unfold robot_status_of_text. cbn [obind]. rewrite H. reflexivity.
Qed.

Lemma array_nesting_defaults_witness :
  robot_status_of_text (Some (JArray [JObject [("name", JString "Onigiri Titan")]])) =
  Ok (mkRobotStatus "Unknown Robot" "No lore available." 1000 50 20
                    "A standard mechanical combat robot.").
Proof. apply (proj2 array_nesting_defaults). reflexivity. Defined.

(** X6. The fallback searches find_string and find_i32 read the entries of an
    object in order: on the concatenation of two entry lists, the result is
    the one found in the first list, and the search of the second list is used
    only when the first finds nothing. *)
Theorem find_concat keys e1 e2 :
  find_string (JObject (e1 ++ e2)) keys =
    match find_string (JObject e1) keys with
    | Some s => Some s
    | None => find_string (JObject e2) keys
    end /\
  find_i32 (JObject (e1 ++ e2)) keys =
    match find_i32 (JObject e1) keys with
    | Some n => Some n
    | None => find_i32 (JObject e2) keys
    end.
Proof.
  induction e1 as [| [k v] rest [IHs IHi]]; [split; reflexivity |].
  split.
  - change (find_string (JObject (((k, v) :: rest) ++ e2)) keys) with
      (match (if key_matches keys k then as_str v else None) with
       | Some s => Some s
       | None => match find_string v keys with
                 | Some res => Some res
                 | None => find_string (JObject (rest ++ e2)) keys
                 end
       end).
    change (find_string (JObject ((k, v) :: rest)) keys) with
      (match (if key_matches keys k then as_str v else None) with
       | Some s => Some s
       | None => match find_string v keys with
                 | Some res => Some res
                 | None => find_string (JObject rest) keys
                 end
       end).
    rewrite IHs.
    destruct (if key_matches keys k then as_str v else None); [reflexivity |].
    destruct (find_string v keys); reflexivity.
  - change (find_i32 (JObject (((k, v) :: rest) ++ e2)) keys) with
      (match (if key_matches keys k then option_map wrap_i32 (as_i64 v) else None) with
       | Some n => Some n
       | None => match find_i32 v keys with
                 | Some res => Some res
                 | None => find_i32 (JObject (rest ++ e2)) keys
                 end
       end).
    change (find_i32 (JObject ((k, v) :: rest)) keys) with
      (match (if key_matches keys k then option_map wrap_i32 (as_i64 v) else None) with
       | Some n => Some n
       | None => match find_i32 v keys with
                 | Some res => Some res
                 | None => find_i32 (JObject rest) keys
                 end
       end).
    rewrite IHi.
    destruct (if key_matches keys k then option_map wrap_i32 (as_i64 v) else None); [reflexivity |].
    destruct (find_i32 v keys); reflexivity.
Qed.

End ExtrasDecode.

Module ExtrasFiles.
Import Download Samples.

(** X7. clean_base64_of, the data URI stripping of run_generation_pipeline,
    always returns text without a comma, so applying it twice gives the same
    result as applying it once. On any text of the form <prefix>,<s> where s
    has no comma, it returns s. *)
Theorem clean_base64_of_props :
  (forall b, contains (Pipeline.clean_base64_of b) "," = false) /\
  (forall b, Pipeline.clean_base64_of (Pipeline.clean_base64_of b) = Pipeline.clean_base64_of b) /\
  (forall p s, contains s "," = false -> Pipeline.clean_base64_of (p ++ "," ++ s) = s).
Proof.
  split; [| split].
  - exact CleanFacts.clean_comma_free.
  - intros b. unfold Pipeline.clean_base64_of at 1.
    rewrite CleanFacts.clean_comma_free. reflexivity.
  - intros p s H. exact (CleanFacts.clean_after_last_comma p s H).
Qed.

Lemma clean_base64_of_props_witness :
  Pipeline.clean_base64_of ("data:image/png;base64" ++ "," ++ "iVBORw0KGgo=") = "iVBORw0KGgo=".
Proof. apply (proj2 (proj2 clean_base64_of_props)). reflexivity. Defined.

(** X8. With the Meshy key set, create_image_to_3d_task sends exactly one
    request. Its body's image_url is the input behind the prefix
    data:image/png;base64, and when the input has no comma (as base64 text
    never does), the pipeline's clean_base64_of recovers the input from that
    image_url. *)
Theorem data_uri_round_trip k send b :
  contains b "," = false ->
  exists req u,
    snd (MeshyCreate.create_image_to_3d_task (Some k) send b) = [req] /\
    MeshyCreate.body req = Some (MeshyCreate.create_task_request u true) /\
    u = "data:image/png;base64," ++ b /\
    Pipeline.clean_base64_of u = b.
Proof.
  intros H. eexists; exists ("data:image/png;base64," ++ b). split; [reflexivity |].
  split; [reflexivity |]. split; [reflexivity |].
  exact (CleanFacts.clean_after_last_comma "data:image/png;base64" b H).
Qed.
Lemma data_uri_round_trip_witness :
  contains "iVBORw0KGgo=" "," = false /\
  exists req u,
    snd (MeshyCreate.create_image_to_3d_task (Some "msy_key") (fun _ => SendErr "offline")
           "iVBORw0KGgo=") = [req] /\
    MeshyCreate.body req = Some (MeshyCreate.create_task_request u true) /\
    u = "data:image/png;base64," ++ "iVBORw0KGgo=" /\
    Pipeline.clean_base64_of u = "iVBORw0KGgo=".
Proof. split; [reflexivity | apply data_uri_round_trip; reflexivity]. Defined.


(** X11. When download_glb fails, every file either is as before or holds a
    prefix of the bytes that were downloaded: a failed write leaves the target
    file truncated to the bytes written before the error, and no failure
    leaves any other content behind. *)
Theorem download_error_leaves_prefix pf send url filename fs e fs' :
  download_glb pf send url filename fs = (Err e, fs') ->
  forall p, files fs' p = files fs p \/
            exists code disp bytes n,
              send url = GResp code disp (Ok bytes) /\ files fs' p = Some (firstn n bytes).
Proof.
  unfold download_glb. intros H p.
  destruct (send url) as [e0 | code disp body] eqn:Hs.
  { injection H as _ <-. left. reflexivity. }
  destruct (negb (is_success code)). { injection H as _ <-. left. reflexivity. }
  destruct body as [bytes | e0]; [| injection H as _ <-; left; reflexivity].
  destruct (app_data_dir pf) as [dir | e0]; [| injection H as _ <-; left; reflexivity].
  destruct (create_dir_all_err pf dir). { injection H as _ <-. left. reflexivity. }
  destruct (create_err pf (Pipeline.join dir filename)). { injection H as _ <-. left. reflexivity. }
  destruct (write_err pf (Pipeline.join dir filename)) as [[n e0] |]; [| discriminate].
  injection H as _ <-. cbn.
  destruct (String.eqb p (Pipeline.join dir filename)).
  - right. exists code, disp, bytes, n. split; reflexivity.
  - left. reflexivity.
Qed.

Lemma download_error_leaves_prefix_witness :
  files (snd (download_glb full_disk_pf glb_send "https://x/y.glb" "t_idle.glb" sample_fs))
        "/data/t_idle.glb" = files sample_fs "/data/t_idle.glb" \/
  exists code disp bytes n,
    glb_send "https://x/y.glb" = GResp code disp (Ok bytes) /\
    files (snd (download_glb full_disk_pf glb_send "https://x/y.glb" "t_idle.glb" sample_fs))
          "/data/t_idle.glb" = Some (firstn n bytes).
Proof.
  exact (download_error_leaves_prefix full_disk_pf glb_send "https://x/y.glb" "t_idle.glb" sample_fs
           "Failed to write to file: disk full"
           (snd (download_glb full_disk_pf glb_send "https://x/y.glb" "t_idle.glb" sample_fs))
           eq_refl "/data/t_idle.glb").
Defined.
End ExtrasFiles.

Module ExtrasHttp.
Import GeminiHttp Samples.

(** X13. generate_robot_status sends the prompt and the image as inline
    image/png data, asking for a JSON response. On a success answer it reads
    only the text of the first part of the first candidate: the result is the
    decoding of that text, and whenever that text is JSON the call succeeds. *)
Theorem stats_call_reads_first_part prompt parse_json k send img code disp etext resp c cs p ps :
  send (mkGenerateContentRequest
          ("https://generativelanguage.googleapis.com/v1beta/models/gemini-2.5-flash:generateContent?key=" ++ k)
          [[PText prompt; PInlineData "image/png" img]] (Some "application/json"))
    = Resp code disp etext (inl resp) ->
  is_success code = true ->
  candidates resp = c :: cs -> parts (content c) = p :: ps ->
  generate_robot_status prompt parse_json (Some k) send img =
    Gemini.robot_status_of_text (parse_json (text p)) /\
  (parse_json (text p) <> None ->
   exists st, generate_robot_status prompt parse_json (Some k) send img = Ok st).
Proof.
  intros Hs Hc Hcand Hparts.
  assert (E : generate_robot_status prompt parse_json (Some k) send img =
              Gemini.robot_status_of_text (parse_json (text p))).
  { unfold generate_robot_status. cbv zeta. rewrite Hs, Hc. cbn [negb].
    rewrite Hcand. cbn [get0]. rewrite Hparts. reflexivity. }
  split; [exact E |]. intros Hj. rewrite E.
  destruct (parse_json (text p)) as [v |]; [| contradiction Hj; reflexivity].
  unfold Gemini.robot_status_of_text. cbn [Gemini.obind].
  destruct (Gemini.serde_robot_status v); eexists; reflexivity.
Qed.
Lemma stats_call_reads_first_part_witness :
  generate_robot_status "prompt" (fun _ => Some (Gemini.JObject [])) (Some "g_key")
    (fun _ => Resp 200 "200 OK" "" (inl stats_reply)) "iVBORw0KGgo=" =
    Gemini.robot_status_of_text (Some (Gemini.JObject [])) /\
  (Some (Gemini.JObject []) <> None ->
   exists st, generate_robot_status "prompt" (fun _ => Some (Gemini.JObject [])) (Some "g_key")
                (fun _ => Resp 200 "200 OK" "" (inl stats_reply)) "iVBORw0KGgo=" = Ok st).
Proof.
  exact (stats_call_reads_first_part "prompt" (fun _ => Some (Gemini.JObject [])) "g_key"
           (fun _ => Resp 200 "200 OK" "" (inl stats_reply)) "iVBORw0KGgo=" 200 "200 OK" ""
           stats_reply _ [] (mkCandidatePart "{}") [mkCandidatePart "ignored"]
           eq_refl eq_refl eq_refl eq_refl).
Defined.
(** X14. generate_robot_image sends the prompt followed by the fixed framing
    instruction. On a success answer it looks only at the first part of the
    first candidate: if that part has no inline image data, the call fails
    with 'No image data returned from NanoBanana API' even when a later part
    carries an image. *)
Theorem image_call_reads_first_part k send prompt code disp etext resp c cs p ps :
  send (mkGenerateContentRequest
          ("https://generativelanguage.googleapis.com/v1beta/models/nano-banana-pro-preview:generateContent?key=" ++ k)
          [[PText (prompt ++ instruction_suffix)]] None) = Resp code disp etext (inl resp) ->
  is_success code = true ->
  image_candidates resp = c :: cs -> image_parts (image_content c) = p :: ps ->
  generate_robot_image (Some k) send prompt =
    match inline_data p with
    | Some d => Ok (data d)
    | None => Err "No image data returned from NanoBanana API"
    end.
Proof.
  intros Hs Hc Hcand Hparts. unfold generate_robot_image. cbv zeta.
  rewrite Hs, Hc. cbn [negb]. rewrite Hcand. cbn [get0]. rewrite Hparts. cbn [get0].
  destruct (inline_data p); reflexivity.
Qed.
Lemma image_call_reads_first_part_witness :
  generate_robot_image (Some "g_key") (fun _ => Resp 200 "200 OK" "" (inl text_then_image)) "robot" =
  Err "No image data returned from NanoBanana API".
Proof.
  exact (image_call_reads_first_part "g_key" (fun _ => Resp 200 "200 OK" "" (inl text_then_image))
           "robot" 200 "200 OK" "" text_then_image _ [] (mkImageCandidatePart None) _
           eq_refl eq_refl eq_refl eq_refl).
Defined.
End ExtrasHttp.

Module ExtrasPipeline.
Import Pipeline PipelineFacts RunFacts Samples.

(** X15. run_generation_pipeline keeps robot IDs unique: if the stored records
    have pairwise distinct IDs before a run, they still do after it, whatever
    the run's outcome. *)
Theorem pipeline_keeps_ids_unique env img st :
  NoDup (map Db.id st) ->
  NoDup (map Db.id (snd (run_generation_pipeline env img st))).
Proof.
  intros Hn. unfold_run. run_cases; cbn [snd]; try exact Hn.
  match goal with
  | H : Db.insert_robot _ _ = Ok _ |- _ => exact (db_insert_nodup _ _ _ Hn H)
  end.
Qed.
Lemma pipeline_keeps_ids_unique_witness :
  snd (run_generation_pipeline scenario_ok_env "iVBORw0KGgo=" [sample_robot_2; overflow_robot]) =
    [sample_robot_2; overflow_robot; scenario_ok_record] /\
  NoDup (map Db.id (snd (run_generation_pipeline scenario_ok_env "iVBORw0KGgo="
                           [sample_robot_2; overflow_robot]))).
Proof.
  split; [vm_compute; reflexivity |].
  apply pipeline_keeps_ids_unique.
  vm_compute.
  repeat (apply NoDup_cons; [cbn; intuition discriminate |]).
  apply NoDup_nil.
Defined.
(** X16. The record a successful run returns is assembled from its stages.
    Stats come from generate_robot_status on the cleaned input image; the
    concept image comes from generate_robot_image on the stats' visual
    description, and it is the input of create_image_to_3d_task. The ID is the
    fresh UUID. The image paths are the app data dir joined with
    <task id>_original.png and <task id>_gen.png, the model paths come from downloading
    <task id>_idle.glb and <task id>_attack.glb, and the creation time and
    generation time are the run's clock readings. *)
Theorem pipeline_record_provenance env img st r st' :
  run_generation_pipeline env img st = (Ok r, st') ->
  exists stats gen task_id idle_url attack_url,
    generate_robot_status env (clean_base64_of img) = Ok stats /\
    generate_robot_image env (Gemini.visual_description stats) = Ok gen /\
    create_image_to_3d_task env gen = Ok task_id /\
    download_glb env idle_url (task_id ++ "_idle.glb") = Ok (Db.model_path r) /\
    download_glb env attack_url (task_id ++ "_attack.glb") = Ok (Db.attack_model_path r) /\
    r = Db.mkRobotRecord (new_uuid env) (Gemini.name stats) (Gemini.lore stats)
          (Gemini.hp stats) (Gemini.atk stats) (Gemini.def stats)
          (join (app_data_dir env) (task_id ++ "_original.png"))
          (join (app_data_dir env) (task_id ++ "_gen.png"))
          (Db.model_path r) (Db.attack_model_path r) (now_secs env) (elapsed_ms env).
Proof.
  revert r st'. unfold_run. run_cases; intros r0 st0 H; try discriminate H.
  injection H as <- _.
  match goal with
  | H1 : generate_robot_status env _ = Ok ?s,
    H2 : generate_robot_image env _ = Ok ?g,
    H3 : create_image_to_3d_task env _ = Ok ?t,
    H4 : download_glb env ?iu (_ ++ "_idle.glb") = Ok _,
    H5 : download_glb env ?au (_ ++ "_attack.glb") = Ok _ |- _ =>
      exists s, g, t, iu, au
  end.
  repeat match goal with H : poll_result _ = _ |- _ => clear H end.
  repeat split; first [reflexivity | assumption].
Qed.

Lemma pipeline_record_provenance_witness :
  exists stats gen task_id idle_url attack_url,
    generate_robot_status scenario_ok_env (clean_base64_of "iVBORw0KGgo=") = Ok stats /\
    generate_robot_image scenario_ok_env (Gemini.visual_description stats) = Ok gen /\
    create_image_to_3d_task scenario_ok_env gen = Ok task_id /\
    download_glb scenario_ok_env idle_url (task_id ++ "_idle.glb") =
      Ok (Db.model_path scenario_ok_record) /\
    download_glb scenario_ok_env attack_url (task_id ++ "_attack.glb") =
      Ok (Db.attack_model_path scenario_ok_record) /\
    scenario_ok_record =
      Db.mkRobotRecord (new_uuid scenario_ok_env) (Gemini.name stats) (Gemini.lore stats)
        (Gemini.hp stats) (Gemini.atk stats) (Gemini.def stats)
        (join (app_data_dir scenario_ok_env) (task_id ++ "_original.png"))
        (join (app_data_dir scenario_ok_env) (task_id ++ "_gen.png"))
        (Db.model_path scenario_ok_record) (Db.attack_model_path scenario_ok_record)
        (now_secs scenario_ok_env) (elapsed_ms scenario_ok_env).
Proof.
  apply (pipeline_record_provenance scenario_ok_env "iVBORw0KGgo=" [] scenario_ok_record
           [scenario_ok_record]).
  vm_compute. reflexivity.
Defined.

(** X17. A successful run has saved both images: the decoding of the cleaned
    input image was written to the record's original_image_path, and the
    decoding of the generated concept image to its image_path. *)
Theorem pipeline_saves_both_images env img st r st' :
  run_generation_pipeline env img st = (Ok r, st') ->
  exists stats gen orig_bytes gen_bytes,
    generate_robot_status env (clean_base64_of img) = Ok stats /\
    generate_robot_image env (Gemini.visual_description stats) = Ok gen /\
    base64_decode env (clean_base64_of img) = Ok orig_bytes /\
    fs_write env (Db.original_image_path r) orig_bytes = Ok tt /\
    base64_decode env gen = Ok gen_bytes /\
    fs_write env (Db.image_path r) gen_bytes = Ok tt.
Proof.
  revert r st'. unfold_run. run_cases; intros r0 st0 H; try discriminate H.
  injection H as <- _. cbn [Db.original_image_path Db.image_path].
  repeat match goal with H : map_err _ _ = Ok _ |- _ => apply map_err_ok in H end.
  repeat match goal with u : unit |- _ => destruct u end.
  match goal with
  | H1 : generate_robot_status env _ = Ok ?s,
    H2 : generate_robot_image env _ = Ok ?g,
    H3 : base64_decode env (clean_base64_of img) = Ok ?ob,
    H5 : base64_decode env ?g = Ok ?gb |- _ =>
      exists s, g, ob, gb
  end.
  repeat match goal with H : poll_result _ = _ |- _ => clear H end.
  repeat split; first [reflexivity | assumption].
Qed.

Lemma pipeline_saves_both_images_witness :
  exists stats gen orig_bytes gen_bytes,
    generate_robot_status scenario_ok_env (clean_base64_of "iVBORw0KGgo=") = Ok stats /\
    generate_robot_image scenario_ok_env (Gemini.visual_description stats) = Ok gen /\
    base64_decode scenario_ok_env (clean_base64_of "iVBORw0KGgo=") = Ok orig_bytes /\
    fs_write scenario_ok_env (Db.original_image_path scenario_ok_record) orig_bytes = Ok tt /\
    base64_decode scenario_ok_env gen = Ok gen_bytes /\
    fs_write scenario_ok_env (Db.image_path scenario_ok_record) gen_bytes = Ok tt.
Proof.
  apply (pipeline_saves_both_images scenario_ok_env "iVBORw0KGgo=" [] scenario_ok_record
           [scenario_ok_record]).
  vm_compute. reflexivity.
Defined.

End ExtrasPipeline.

Module ExtrasDb.
Import Db DbRows RowFacts Samples.
Local Open Scope list_scope.

(** X18. A row stored by insert_robot reads back through get_robots as the
    same record, appended after the records read before, provided hp, atk and
    def fit in an i32. *)
Theorem get_robots_after_insert table robot table' rs :
  get_robots table = Ok rs -> insert_robot table robot = Ok table' ->
  Gemini.in_i32 (hp robot) = true -> Gemini.in_i32 (atk robot) = true ->
  Gemini.in_i32 (def robot) = true ->
  get_robots table' = Ok (rs ++ [robot])%list.
Proof.
  intros Hg Hi Hh Ha Hd. unfold insert_robot in Hi.
  match type of Hi with context [if ?b then _ else _] => destruct b end; [discriminate |].
  injection Hi as <-.
  unfold get_robots in *. rewrite collect_app, Hg. cbn [rbind collect].
  rewrite (row_round_trip robot Hh Ha Hd). reflexivity.
Qed.
Lemma get_robots_after_insert_witness :
  get_robots ([row_of_insert insert_columns (robot_params sample_robot)] ++
              [row_of_insert insert_columns (robot_params sample_robot_2)]) =
  Ok ([sample_robot] ++ [sample_robot_2]).
Proof.
  apply (get_robots_after_insert [row_of_insert insert_columns (robot_params sample_robot)]
           sample_robot_2); vm_compute; reflexivity.
Defined.
(** X19. A single stored row that does not convert (a wrong column type, or an
    hp, atk or def outside the i32 range) makes get_robots fail as a whole,
    wherever the row sits in the table. *)
Theorem get_robots_fails_on_bad_row t1 row t2 e :
  robot_of_row (select_row row) = Err e ->
  exists e', get_robots (t1 ++ row :: t2)%list = Err e'.
Proof.
  intros H. unfold get_robots. rewrite collect_app.
  destruct (collect t1 []) as [l | e'].
  - cbn [rbind collect]. rewrite H. exists e. reflexivity.
  - exists e'. reflexivity.
Qed.
Lemma get_robots_fails_on_bad_row_witness :
  exists e', get_robots ([row_of_insert insert_columns (robot_params sample_robot)] ++
                         overflow_row :: [])%list = Err e'.
Proof.
  apply (get_robots_fails_on_bad_row _ _ _ (IntegralValueOutOfRange 3 (2 ^ 31))).
  vm_compute. reflexivity.
Defined.
End ExtrasDb.
